(** * extract_zip: a manifest-driven zip extractor

    Shallow embedding of [extract_zip.py] (class [ExtractZip]) and the
    properties of its three operations: construction, [extract] and
    [close].

    The Python class talks to four libraries: [zipfile], [pandas],
    [datetime]/[time] and [os].  Their behaviour is the environment of the
    program.  The archive handle, the data frame and the filesystem are
    modelled by small concrete structures; opening an archive, reading a
    CSV file and parsing a date are oracles collected in [Env]. *)

From Stdlib Require Import ZArith Strings.String Strings.Ascii Strings.Byte.
From stdpp Require Import base option list gmap strings.

Local Open Scope Z_scope.

(** ** Python values and exceptions *)

(** A cell of the manifest frame, as [itertuples] hands it to the loop: a
    [str] of a text column; the float [nan] that pandas stores for an empty
    field; an [int] of a column that pandas read as integers (every field
    made of digits); a [bool] of a boolean column.  The program treats
    every float like [nan] (it is refused wherever a string or a
    descriptor is needed), so other floats have no constructor of their
    own. *)
Inductive cell :=
| Str (s : string)
| NaN
| Int (n : Z)
| Bool (b : bool).

#[global] Instance cell_eq_dec : EqDecision cell.
Proof. solve_decision. Defined.

(** Decimal digits, for [str] of an integer. *)
Definition digit_char (d : Z) : ascii := ascii_of_nat (48 + Z.to_nat d).

Fixpoint digits (fuel : nat) (n : Z) (acc : string) : string :=
  match fuel with
  | O => acc
  | S fuel' =>
      let acc' := String (digit_char (n mod 10)) acc in
      if n <? 10 then acc' else digits fuel' (n / 10) acc'
  end.

Definition str_int (n : Z) : string :=
  let body := digits (S (Z.to_nat (Z.abs n))) (Z.abs n) EmptyString in
  if n <? 0 then String "-"%char body else body.

Arguments str_int : simpl never.

(** [str(x)] *)
Definition str (c : cell) : string :=
  match c with
  | Str s => s
  | NaN => "nan"
  | Int n => str_int n
  | Bool true => "True"
  | Bool false => "False"
  end.

(** [type(x).__name__] *)
Definition type_name (c : cell) : string :=
  match c with
  | Str _ => "str"
  | NaN => "float"
  | Int _ => "int"
  | Bool _ => "bool"
  end.

Inductive exn_class :=
| AttributeError
| KeyError
| ValueError
| TypeError
| OverflowError
| BadZipFile
| OSError
| FileNotFoundError
| FileExistsError
| NotADirectoryError
| IsADirectoryError.

#[global] Instance exn_class_eq_dec : EqDecision exn_class.
Proof. solve_decision. Defined.

(** An exception: its class and the argument it was raised about (the
    missing key, attribute or file name, or the library's message). *)
Record exn := Exn { exn_cls : exn_class; exn_arg : string }.

#[global] Instance exn_eq_dec : EqDecision exn.
Proof. solve_decision. Defined.

(** The outcome of a call: an exception or a value. *)
Definition result (A : Type) : Type := exn + A.

Definition Raise {A} (c : exn_class) (arg : string) : result A := inl (Exn c arg).
Definition Ok {A} (a : A) : result A := inr a.

Definition bytes := list byte.

(** ** Strings and paths *)

(** [s.endswith(suffix)] *)
Definition endswith (s suffix : string) : bool :=
  (String.length suffix <=? String.length s)%nat &&
  String.eqb
    (String.substring (String.length s - String.length suffix)
                      (String.length suffix) s)
    suffix.

(** Split a path at every ['/']; empty pieces stand for doubled, leading
    and trailing separators. *)
Fixpoint split_sep (s : string) : list string :=
  match s with
  | EmptyString => [EmptyString]
  | String a rest =>
      if Ascii.eqb a "/"%char then EmptyString :: split_sep rest
      else match split_sep rest with
           | [] => [String a EmptyString]
           | c :: cs => String a c :: cs
           end
  end.

Definition components (p : string) : list string :=
  filter (λ c, c ≠ EmptyString) (split_sep p).

Definition is_absolute (p : string) : bool := String.prefix "/" p.

(** A resolved location: the names from the root down. *)
Abbreviation fpath := (list string).

(** Following one component from directory [cur]. *)
Definition step (cur : fpath) (c : string) : fpath :=
  if decide (c = ".") then cur
  else if decide (c = "..") then removelast cur
  else cur ++ [c].

(** The directories passed through when the components [cs] are followed
    from [cur]: [cur] itself, then the location after each component. *)
Fixpoint trail (cur : fpath) (cs : list string) : list fpath :=
  match cs with
  | [] => [cur]
  | c :: rest => cur :: trail (step cur c) rest
  end.

(** ** The filesystem *)

(** Regular files carry their content and the two times [os.utime] sets.
    Directory times, permissions and symbolic links are not modelled. *)
Inductive node :=
| Dir
| File (data : bytes) (atime mtime : Z).

Abbreviation fsys := (gmap fpath node).

Definition is_dir (fs : fsys) (p : fpath) : bool :=
  match fs !! p with Some Dir => true | _ => false end.

Definition is_file (fs : fsys) (p : fpath) : bool :=
  match fs !! p with Some (File _ _ _) => true | _ => false end.

(** The first location of [ds] that is not an existing directory decides
    the error of a lookup through [ds]. *)
Fixpoint check_dirs (fs : fsys) (name : string) (ds : list fpath) : result unit :=
  match ds with
  | [] => Ok tt
  | d :: rest =>
      match fs !! d with
      | Some Dir => check_dirs fs name rest
      | Some (File _ _ _) => Raise NotADirectoryError name
      | None => Raise FileNotFoundError name
      end
  end.

(** Where a path string starts: the root for an absolute path, the
    working directory otherwise. *)
Definition start_of (cwd : fpath) (p : string) : fpath :=
  if is_absolute p then [] else cwd.

(** Every location the path passes through, the leaf included. *)
Definition visited (cwd : fpath) (p : string) : list fpath :=
  trail (start_of cwd p) (components p).

(** The directories on the way to the leaf. *)
Definition ancestors (cwd : fpath) (p : string) : list fpath :=
  trail (start_of cwd p) (removelast (components p)).

(** The last component and the location the path names. *)
Definition leaf (p : string) : string := List.last (components p) EmptyString.

Definition resolve (cwd : fpath) (p : string) : fpath :=
  List.last (visited cwd p) [].

(** [open(p, 'wb')] followed by [f.write(data)] and the close at the end
    of the [with] block, at time [now]: the file is created or truncated
    and then holds exactly [data].  Every directory on the way must exist;
    nothing is created but the file itself. *)
Definition fs_open_write (cwd : fpath) (now : Z) (p : string) (data : bytes)
    (fs : fsys) : result fsys :=
  if decide (p = EmptyString) then Raise FileNotFoundError p
  else if decide (components p = []) then Raise IsADirectoryError p
  else
    match check_dirs fs p (ancestors cwd p) with
    | inl e => inl e
    | inr _ =>
        if decide (leaf p = "." ∨ leaf p = "..") then Raise IsADirectoryError p
        else
          match fs !! resolve cwd p with
          | Some Dir => Raise IsADirectoryError p
          | Some (File _ a _) =>
              if endswith p "/" then Raise NotADirectoryError p
              else Ok (<[resolve cwd p := File data a now]> fs)
          | None =>
              if endswith p "/" then Raise IsADirectoryError p
              else Ok (<[resolve cwd p := File data now now]> fs)
          end
    end.

(** [os.utime(p, (a, m))] *)
Definition fs_utime (cwd : fpath) (p : string) (a m : Z) (fs : fsys) : result fsys :=
  if decide (p = EmptyString) then Raise FileNotFoundError p
  else
    match check_dirs fs p (ancestors cwd p) with
    | inl e => inl e
    | inr _ =>
        match fs !! resolve cwd p with
        | Some Dir => Ok fs
        | Some (File data _ _) =>
            if endswith p "/" then Raise NotADirectoryError p
            else Ok (<[resolve cwd p := File data a m]> fs)
        | None => Raise FileNotFoundError p
        end
    end.

(** Create every location of [ds] that does not exist yet as a directory. *)
Fixpoint mkdir_all (ds : list fpath) (fs : fsys) : fsys :=
  match ds with
  | [] => fs
  | d :: rest =>
      mkdir_all rest (match fs !! d with
                      | None => <[d := Dir]> fs
                      | Some _ => fs
                      end)
  end.

(** The walk of [os.makedirs] through the locations [ds]: a missing
    location is made a directory as soon as it is reached, a directory is
    passed, and the first regular file stops the walk, as
    [NotADirectoryError] when the walk would have to pass through it, as
    [FileExistsError] when it is the leaf itself.  The directories made
    before the file stay. *)
Fixpoint makedirs_walk (name : string) (ds : list fpath) (fs : fsys)
    : result unit * fsys :=
  match ds with
  | [] => (Ok tt, fs)
  | d :: rest =>
      match fs !! d with
      | Some (File _ _ _) =>
          (match rest with
           | [] => Raise FileExistsError name
           | _ => Raise NotADirectoryError name
           end, fs)
      | Some Dir => makedirs_walk name rest fs
      | None => makedirs_walk name rest (<[d := Dir]> fs)
      end
  end.

(** [os.makedirs(p, exist_ok=True)]: the outcome and the disk it leaves.
    The leaf and every missing directory on the way are created;
    directories that exist are left alone. *)
Definition fs_makedirs (cwd : fpath) (p : string) (fs : fsys)
    : result unit * fsys :=
  if decide (p = EmptyString) then (Raise FileNotFoundError p, fs)
  else makedirs_walk p (visited cwd p) fs.

(** ** The archive handle ([zipfile.ZipFile]) *)

(** What the archive stores under a name: readable bytes, or data whose
    check fails on reading. *)
Inductive zentry :=
| Stored (data : bytes)
| Corrupt.

(** The underlying file object; [close_raises] is what its [close()]
    raises, if anything. *)
Record FileObj := mkFileObj { close_raises : option exn }.

(** [NameToInfo] is the archive's directory; [fp] is [None] once the
    archive has been closed. *)
Record ZipFile := mkZipFile {
  NameToInfo : gmap string zentry;
  fp : option FileObj
}.

Definition closed_archive_msg : string :=
  "Attempt to use ZIP archive that was already closed".

(** [ZipFile.read(name)] *)
Definition ZipFile_read (z : ZipFile) (name : cell) : result bytes :=
  match fp z with
  | None => Raise ValueError closed_archive_msg
  | Some _ =>
      match name with
      | Str n =>
          match NameToInfo z !! n with
          | None => Raise KeyError n
          | Some Corrupt => Raise BadZipFile n
          | Some (Stored data) => Ok data
          end
      | _ => Raise KeyError (str name)
      end
  end.

(** [ZipFile.close()]: a second call returns at once; the first one drops
    the file object before closing it, so [fp] is [None] afterwards even
    when the file object's own close raises. *)
Definition ZipFile_close (z : ZipFile) : result unit * ZipFile :=
  match fp z with
  | None => (Ok tt, z)
  | Some f =>
      (match close_raises f with Some e => inl e | None => Ok tt end,
       mkZipFile (NameToInfo z) None)
  end.

(** ** The manifest frame ([pandas.DataFrame]) *)

(** Column labels (unique, as [read_csv] makes them) and the rows in file
    order. *)
Record DataFrame := mkDataFrame {
  columns : list string;
  rows : list (list cell)
}.

Fixpoint index_of (name : string) (cols : list string) : option nat :=
  match cols with
  | [] => None
  | c :: rest =>
      if decide (c = name) then Some O
      else S <$> index_of name rest
  end.

(** The positions of the requested labels; the first label that is not a
    column is reported. *)
Fixpoint locate (cols : list string) (names : list string) : result (list nat) :=
  match names with
  | [] => Ok []
  | n :: rest =>
      match index_of n cols with
      | None => Raise KeyError n
      | Some i =>
          match locate cols rest with
          | inl e => inl e
          | inr ixs => Ok (i :: ixs)
          end
      end
  end.

(** [df[[n1, ..., nk]]] *)
Definition getitem (df : DataFrame) (names : list string) : result DataFrame :=
  match locate (columns df) names with
  | inl e => inl e
  | inr ixs =>
      Ok (mkDataFrame names (map (λ r, map (λ i, nth i r NaN) ixs) (rows df)))
  end.

(** [df.itertuples(index=False, name=None)] *)
Definition itertuples (df : DataFrame) : list (list cell) := rows df.

(** ** Dates *)

Record datetime := mkDatetime {
  year : Z; month : Z; day : Z; hour : Z; minute : Z; second : Z
}.

(** ** The environment *)

(** [zipfile_ZipFile] and [pd_read_csv] answer for the files on disk at
    construction time; [datetime_strptime s fmt] is
    [datetime.strptime(s, fmt)]; [time_mktime d] is
    [time.mktime(d.timetuple())], the local-time epoch in whole seconds;
    [cwd] is the directory relative paths start from.  [open_number c] is
    what [open(c, 'wb')], the write and the close at the end of the [with]
    block do when the cell [c] is an [int] or a [bool]: Python takes a
    number for a file descriptor of the process, and the disk of the model
    is not involved. *)
Record Env := mkEnv {
  zipfile_ZipFile : string → result ZipFile;
  pd_read_csv : string → result DataFrame;
  datetime_strptime : string → string → result datetime;
  time_mktime : datetime → result Z;
  cwd : fpath;
  open_number : cell → result unit
}.

(** ** The world and the monad of calls *)

(** The calls the program makes, in the order it makes them. *)
Inductive event :=
| Print (zipped out_path : cell) (creation_date modified_date : Z)
| ZipRead (name : cell)
| Makedirs (path : cell)
| OpenWrite (path : cell) (data : bytes)
| Utime (path : cell) (atime mtime : Z)
| ZipClose.

Record World := mkWorld {
  files : fsys;
  clock : Z;
  calls : list event
}.

(** A call runs in a world and leaves a world, whether it returns or
    raises. *)
Definition M (A : Type) : Type := World → result A * World.

#[global] Instance M_ret : MRet M := λ A a w, (Ok a, w).
#[global] Instance M_bind : MBind M := λ A B f m w,
  match m w with
  | (inl e, w') => (inl e, w')
  | (inr a, w') => f a w'
  end.

Definition raise {A} (c : exn_class) (arg : string) : M A :=
  λ w, (Raise c arg, w).

Definition lift {A} (r : result A) : M A := λ w, (r, w).

Definition log (e : event) (w : World) : World :=
  mkWorld (files w) (clock w) (calls w ++ [e]).

Definition emit (e : event) : M unit := λ w, (Ok tt, log e w).

(** Run a filesystem operation on the world's files. *)
Definition on_files (op : Z → fsys → result fsys) : M unit :=
  λ w, match op (clock w) (files w) with
       | inl e => (inl e, w)
       | inr fs' => (Ok tt, mkWorld fs' (clock w) (calls w))
       end.

(** Run a filesystem operation that may leave its mark on the files
    even when it raises. *)
Definition on_files_partial (op : fsys → result unit * fsys) : M unit :=
  λ w, let '(r, fs') := op (files w) in (r, mkWorld fs' (clock w) (calls w)).

(** [for x in xs: body(x)] *)
Fixpoint for_each {A} (xs : list A) (body : A → M unit) : M unit :=
  match xs with
  | [] => mret tt
  | x :: rest => body x ;; for_each rest body
  end.

(** [self.name], which raises when the attribute was never set. *)
Definition getattr {A} (name : string) (o : option A) : M A :=
  match o with
  | Some a => mret a
  | None => raise AttributeError name
  end.

(** *** The [os] calls of [extract] *)

Definition not_a_path_msg : string :=
  "expected str, bytes or os.PathLike object".

Definition bad_descriptor_msg : string := "Bad file descriptor".

(** [os.makedirs] splits its argument as a path: anything but a string is
    a [TypeError]. *)
Definition os_makedirs (E : Env) (path : cell) : M unit :=
  emit (Makedirs path) ;;
  match path with
  | Str p => on_files_partial (fs_makedirs (cwd E) p)
  | _ => raise TypeError not_a_path_msg
  end.

(** [with open(path, 'wb') as f: f.write(data)]: a float is refused; an
    [int] or a [bool] is a descriptor. *)
Definition open_wb_write (E : Env) (path : cell) (data : bytes) : M unit :=
  emit (OpenWrite path data) ;;
  match path with
  | Str p => on_files (λ now, fs_open_write (cwd E) now p data)
  | NaN => raise TypeError "integer argument expected, got float"
  | _ => lift (open_number E path)
  end.

(** [os.utime(path, times)]: a number addresses a descriptor, and the one
    call of the program comes after the [with] block has closed it. *)
Definition os_utime (E : Env) (path : cell) (times : Z * Z) : M unit :=
  emit (Utime path times.1 times.2) ;;
  match path with
  | Str p => on_files (λ _, fs_utime (cwd E) p times.1 times.2)
  | NaN => raise TypeError not_a_path_msg
  | _ => raise OSError bad_descriptor_msg
  end.

Definition print (zipped out_path : cell) (c m : Z) : M unit :=
  emit (Print zipped out_path c m).

(** [time.mktime(datetime.strptime(raw, date_format).timetuple())]: the
    value, or the exception of the call that raised. *)
Definition epoch_of (E : Env) (raw : cell) (date_format : string) : result Z :=
  match raw with
  | Str s =>
      match datetime_strptime E s date_format with
      | inl e => inl e
      | inr d => time_mktime E d
      end
  | _ =>
      Raise TypeError
        ("strptime() argument 1 must be str, not " +:+ type_name raw)
  end.

Definition to_epoch (E : Env) (raw : cell) (date_format : string) : M Z :=
  lift (epoch_of E raw date_format).

(** ** class ExtractZip *)

(** The instance attributes.  An attribute is [None] until [__init__]
    assigns it, so an object whose construction raised partway is a value
    of this type as well. *)
Record ExtractZip := mkExtractZip {
  zip_file : option ZipFile;
  df : option DataFrame;
  input_col : option string;
  output_col : option string;
  creation_date_col : option string;
  modified_date_col : option string;
  _closed : option bool
}.

(** The object [__init__] receives: no attribute set. *)
Definition new_object : ExtractZip :=
  mkExtractZip None None None None None None None.

Definition set_zip_file (z : ZipFile) (self : ExtractZip) : ExtractZip :=
  mkExtractZip (Some z) (df self) (input_col self) (output_col self)
    (creation_date_col self) (modified_date_col self) (_closed self).

Definition set_df (d : DataFrame) (self : ExtractZip) : ExtractZip :=
  mkExtractZip (zip_file self) (Some d) (input_col self) (output_col self)
    (creation_date_col self) (modified_date_col self) (_closed self).

Definition set_cols (i o c m : string) (self : ExtractZip) : ExtractZip :=
  mkExtractZip (zip_file self) (df self) (Some i) (Some o) (Some c) (Some m)
    (_closed self).

Definition set_closed (b : bool) (self : ExtractZip) : ExtractZip :=
  mkExtractZip (zip_file self) (df self) (input_col self) (output_col self)
    (creation_date_col self) (modified_date_col self) (Some b).

(** [__init__]: the attributes are assigned in the order of the source, so
    an exception leaves the ones before it set and the rest unset. *)
Definition __init__ (E : Env) (self : ExtractZip) (zip_file manifest : string)
    (input_col output_col creation_date_col modified_date_col : string)
    : result unit * ExtractZip :=
  match zipfile_ZipFile E zip_file with
  | inl e => (inl e, self)
  | inr z =>
      let self := set_zip_file z self in
      match pd_read_csv E manifest with
      | inl e => (inl e, self)
      | inr d =>
          let self := set_df d self in
          let self :=
            set_cols input_col output_col creation_date_col modified_date_col self in
          (Ok tt, set_closed false self)
      end
  end.

(** The default column names of the signature. *)
Definition init_default (E : Env) (self : ExtractZip) (zip_file manifest : string) :=
  __init__ E self zip_file manifest "input" "output" "creation_date" "modified_date".

(** The body of the loop of [extract], for one tuple of the frame. *)
Definition loop_body (E : Env) (self : ExtractZip) (date_format : string)
    (row : list cell) : M unit :=
  match row with
  | [zipped; out_path; creation_date; modified_date] =>
      creation_date ← to_epoch E creation_date date_format;
      modified_date ← to_epoch E modified_date date_format;
      print zipped out_path creation_date modified_date ;;
      z ← getattr "zip_file" (zip_file self);
      data ← (emit (ZipRead zipped) ;; lift (ZipFile_read z zipped));
      if endswith (str out_path) "/" then
        os_makedirs E out_path
      else
        open_wb_write E out_path data ;;
        os_utime E out_path (creation_date, modified_date)
  | _ => raise ValueError "unpack"
  end.

(** The iterable of the loop:
    [self.df[[input_col, output_col, creation_date_col,
    modified_date_col]].itertuples(index=False, name=None)]. *)
Definition manifest_tuples (self : ExtractZip) : M (list (list cell)) :=
  d ← getattr "df" (df self);
  i ← getattr "input_col" (input_col self);
  o ← getattr "output_col" (output_col self);
  c ← getattr "creation_date_col" (creation_date_col self);
  m ← getattr "modified_date_col" (modified_date_col self);
  sub ← lift (getitem d [i; o; c; m]);
  mret (itertuples sub).

(** [extract(date_format)] *)
Definition extract (E : Env) (self : ExtractZip) (date_format : string) : M unit :=
  tuples ← manifest_tuples self;
  for_each tuples (loop_body E self date_format).

(** [close()]: [getattr(self, "_closed", True)] reads a missing flag as
    closed; the flag is set in the [finally] clause, whatever the archive's
    close did. *)
Definition close (self : ExtractZip) (w : World) : result unit * ExtractZip * World :=
  if negb (default true (_closed self)) then
    let '(r, self1, w1) :=
      match zip_file self with
      | None => (Raise AttributeError "zip_file", self, w)
      | Some z =>
          let '(r, z') := ZipFile_close z in
          (r, set_zip_file z' self, log ZipClose w)
      end in
    (r, set_closed true self1, w1)
  else (Ok tt, self, w).

Definition __enter__ (self : ExtractZip) : ExtractZip := self.

(** [__exit__] closes and returns [False]: an exception of the block is
    not suppressed. *)
Definition __exit__ (self : ExtractZip) (w : World) : result bool * ExtractZip * World :=
  let '(r, self', w') := close self w in
  (match r with inl e => inl e | inr _ => Ok false end, self', w').

(** [__del__]: [close] with every exception swallowed. *)
Definition __del__ (self : ExtractZip) (w : World) : result unit * ExtractZip * World :=
  let '(_, self', w') := close self w in
  (Ok tt, self', w').

(** The script at the end of the module:
    [with ExtractZip("sample-1.zip", "example.csv") as e: e.extract(...)]. *)
Definition main (E : Env) (w : World) : result unit * ExtractZip * World :=
  match init_default E new_object "sample-1.zip" "example.csv" with
  | (inl e, self) =>
      let '(_, self', w') := __del__ self w in
      (inl e, self', w')
  | (inr _, self) =>
      let e := __enter__ self in
      let '(r, w1) := extract E e "%Y-%m-%dT%H:%M:%S" w in
      let '(x, self', w2) := __exit__ e w1 in
      (match x with
       | inl err => inl err
       | inr _ => r
       end, self', w2)
  end.

(** ** The run seen from the disk

    What one tuple asks of the filesystem is fixed before the disk is
    touched: the dates, the archive read and the branch on the trailing
    separator do not look at it.  [row_action] is that request,
    [do_action] its execution, [run_fs] the loop. *)

Inductive action :=
| MkDirs (path : cell)
| WriteFile (path : cell) (data : bytes) (atime mtime : Z).

Definition row_action (E : Env) (self : ExtractZip) (date_format : string)
    (row : list cell) : result action :=
  match row with
  | [zipped; out_path; creation_date; modified_date] =>
      match epoch_of E creation_date date_format with
      | inl e => inl e
      | inr c =>
          match epoch_of E modified_date date_format with
          | inl e => inl e
          | inr m =>
              match zip_file self with
              | None => Raise AttributeError "zip_file"
              | Some z =>
                  match ZipFile_read z zipped with
                  | inl e => inl e
                  | inr data =>
                      if endswith (str out_path) "/" then Ok (MkDirs out_path)
                      else Ok (WriteFile out_path data c m)
                  end
              end
          end
      end
  | _ => Raise ValueError "unpack"
  end.

(** A write and the [utime] after it; the time of the write is
    overwritten by [utime], so any value serves for it. *)
Definition write_then_utime (cwd : fpath) (p : string) (data : bytes) (a m : Z)
    (fs : fsys) : result fsys :=
  match fs_open_write cwd 0 p data fs with
  | inl e => inl e
  | inr fs1 => fs_utime cwd p a m fs1
  end.

Definition do_action (E : Env) (act : action) (fs : fsys) : result unit * fsys :=
  match act with
  | MkDirs (Str p) => fs_makedirs (cwd E) p fs
  | MkDirs _ => (Raise TypeError not_a_path_msg, fs)
  | WriteFile (Str p) data a m =>
      match write_then_utime (cwd E) p data a m fs with
      | inl e => (inl e, fs)
      | inr fs' => (Ok tt, fs')
      end
  | WriteFile NaN _ _ _ =>
      (Raise TypeError "integer argument expected, got float", fs)
  | WriteFile path _ _ _ =>
      (match open_number E path with
       | inl e => inl e
       | inr _ => Raise OSError bad_descriptor_msg
       end, fs)
  end.

Definition row_fs (E : Env) (self : ExtractZip) (date_format : string)
    (row : list cell) (fs : fsys) : result unit * fsys :=
  match row_action E self date_format row with
  | inl e => (inl e, fs)
  | inr act => do_action E act fs
  end.

Fixpoint run_fs (E : Env) (self : ExtractZip) (date_format : string)
    (tuples : list (list cell)) (fs : fsys) : result unit * fsys :=
  match tuples with
  | [] => (Ok tt, fs)
  | row :: rest =>
      match row_fs E self date_format row fs with
      | (inl e, fs1) => (inl e, fs1)
      | (inr _, fs1) => run_fs E self date_format rest fs1
      end
  end.

(** The two shapes of a successful action on the disk: directories
    [ds] made where missing, or the file at [t] replaced, which needs the
    directories [ds] in place and no directory at [t]. *)
Inductive fsop :=
| OpMk (ds : list fpath)
| OpWr (ds : list fpath) (t : fpath) (data : bytes) (a m : Z).

Definition apply_op (o : fsop) (fs : fsys) : option fsys :=
  match o with
  | OpMk ds =>
      if forallb (λ d, negb (is_file fs d)) ds then Some (mkdir_all ds fs)
      else None
  | OpWr ds t data a m =>
      if forallb (is_dir fs) ds && negb (is_dir fs t)
      then Some (<[t := File data a m]> fs)
      else None
  end.


(** The path strings [open(p, 'wb')] can create a file for: not empty,
    with a last component that is a name, and no trailing separator. *)
Definition writable (p : string) : Prop :=
  p ≠ EmptyString ∧ components p ≠ [] ∧ ¬ (leaf p = "." ∨ leaf p = "..") ∧
  endswith p "/" = false.

#[global] Instance writable_dec (p : string) : Decision (writable p).
Proof. unfold writable. apply _. Defined.

Definition action_op (cwd : fpath) (act : action) : option fsop :=
  match act with
  | MkDirs (Str p) =>
      if decide (p = EmptyString) then None else Some (OpMk (visited cwd p))
  | WriteFile (Str p) data a m =>
      if decide (writable p) then
        Some (OpWr (ancestors cwd p) (resolve cwd p) data a m)
      else None
  | _ => None
  end.

(** The file a successful operation replaces. *)
Definition op_target (o : fsop) : list fpath :=
  match o with
  | OpMk _ => []
  | OpWr _ t _ _ _ => [t]
  end.



(** The operation of a tuple, when it gets as far as the disk. *)
Definition row_op (E : Env) (self : ExtractZip) (date_format : string)
    (row : list cell) : option fsop :=
  match row_action E self date_format row with
  | inl _ => None
  | inr act => action_op (cwd E) act
  end.


(** The files replaced by the tuples of a run that complete. *)
Fixpoint written (E : Env) (self : ExtractZip) (date_format : string)
    (tuples : list (list cell)) (fs : fsys) : list fpath :=
  match tuples with
  | [] => []
  | row :: rest =>
      match row_fs E self date_format row fs with
      | (inl _, _) => []
      | (inr _, fs1) =>
          match row_op E self date_format row with
          | Some o => op_target o
          | None => []
          end ++ written E self date_format rest fs1
      end
  end.


(** ** Observations *)

(** The calls that create or overwrite something on disk. *)
Definition is_fs_effect (e : event) : bool :=
  match e with
  | Makedirs _ | OpenWrite _ _ => true
  | _ => false
  end.

Definition fs_effects (l : list event) : list event :=
  filter (λ e, is_fs_effect e) l.


(** A session as [__init__] leaves it: every attribute set, not closed. *)
Definition constructed (self : ExtractZip) : Prop :=
  is_Some (zip_file self) ∧ is_Some (df self) ∧ is_Some (input_col self) ∧
  is_Some (output_col self) ∧ is_Some (creation_date_col self) ∧
  is_Some (modified_date_col self) ∧ _closed self = Some false.

(** A session on which [close] has returned or raised before. *)
Definition closed_before (self : ExtractZip) : Prop :=
  ∃ self0 w0 r w1, close self0 w0 = (r, self, w1).

(** An object whose [__init__] raised partway. *)
Definition construction_failed (E : Env) (self : ExtractZip) : Prop :=
  ∃ zp mp i o c m e, __init__ E new_object zp mp i o c m = (inl e, self).

(** The value of an outcome, when it is one. *)
Definition inr_opt {A} (r : result A) : option A :=
  match r with
  | inl _ => None
  | inr a => Some a
  end.


Definition is_makedirs (e : event) : bool :=
  match e with
  | Makedirs _ => true
  | _ => false
  end.

(** The lines [extract] prints. *)
Definition is_print (e : event) : bool :=
  match e with
  | Print _ _ _ _ => true
  | _ => false
  end.

Definition printed (l : list event) : list event :=
  filter (λ e, is_print e) l.

(** The line printed for a tuple whose dates parse. *)
Definition row_print (E : Env) (date_format : string) (row : list cell)
    : option event :=
  match row with
  | [zipped; out_path; creation_date; modified_date] =>
      match epoch_of E creation_date date_format,
            epoch_of E modified_date date_format with
      | inr c, inr m => Some (Print zipped out_path c m)
      | _, _ => None
      end
  | _ => None
  end.

(** The destinations of the file tuples of a manifest, resolved. *)
Definition file_destinations (cwd : fpath) (tuples : list (list cell))
    : list fpath :=
  omap (λ row,
          match row with
          | [_; Str p; _; _] =>
              if endswith p "/" then None else Some (resolve cwd p)
          | _ => None
          end) tuples.

(** ** A reference environment

    A concrete instance of [Env] for the scenarios: a [strptime] for the
    numeric directives [%Y %m %d %H %M %S] with zero-padded fields, a
    [mktime] for a process running in UTC, one archive and one manifest,
    and a process whose standard output and error are open for
    writing. *)
Module Sample.

Definition digit_of (a : ascii) : option Z :=
  let n := Z.of_nat (nat_of_ascii a) in
  if (48 <=? n) && (n <=? 57) then Some (n - 48) else None.

Fixpoint read_digits (n : nat) (s : string) (acc : Z) : option (Z * string) :=
  match n with
  | O => Some (acc, s)
  | S n' =>
      match s with
      | String a rest =>
          match digit_of a with
          | Some d => read_digits n' rest (10 * acc + d)
          | None => None
          end
      | EmptyString => None
      end
  end.

Inductive failure :=
| Mismatch
| BadDirective (d : ascii)
| Remains (rest : string).

(** Width, bounds and destination of a directive. *)
Definition field (d : ascii) (v : Z) (t : datetime) : option datetime :=
  let within lo hi r := if (lo <=? v) && (v <=? hi) then Some r else None in
  match d with
  | "Y"%char => Some (mkDatetime v (month t) (day t) (hour t) (minute t) (second t))
  | "m"%char => within 1 12 (mkDatetime (year t) v (day t) (hour t) (minute t) (second t))
  | "d"%char => within 1 31 (mkDatetime (year t) (month t) v (hour t) (minute t) (second t))
  | "H"%char => within 0 23 (mkDatetime (year t) (month t) (day t) v (minute t) (second t))
  | "M"%char => within 0 59 (mkDatetime (year t) (month t) (day t) (hour t) v (second t))
  | "S"%char => within 0 61 (mkDatetime (year t) (month t) (day t) (hour t) (minute t) v)
  | _ => None
  end.

Definition width (d : ascii) : option nat :=
  match d with
  | "Y"%char => Some 4%nat
  | "m"%char | "d"%char | "H"%char | "M"%char | "S"%char => Some 2%nat
  | _ => None
  end.

Fixpoint parse (fmt data : string) (t : datetime) : failure + datetime :=
  match fmt with
  | EmptyString =>
      match data with
      | EmptyString => inr t
      | _ => inl (Remains data)
      end
  | String "%"%char (String d rest) =>
      match width d with
      | None => inl (BadDirective d)
      | Some n =>
          match read_digits n data 0 with
          | None => inl Mismatch
          | Some (v, data') =>
              match field d v t with
              | None => inl Mismatch
              | Some t' => parse rest data' t'
              end
          end
      end
  | String a rest =>
      match data with
      | String b data' =>
          if Ascii.eqb a b then parse rest data' t else inl Mismatch
      | EmptyString => inl Mismatch
      end
  end.

Definition is_leap (y : Z) : bool :=
  ((y mod 4 =? 0) && negb (y mod 100 =? 0)) || (y mod 400 =? 0).

Definition days_in_month (y m : Z) : Z :=
  if m =? 2 then (if is_leap y then 29 else 28)
  else if (m =? 4) || (m =? 6) || (m =? 9) || (m =? 11) then 30
  else 31.

Definition strptime (s fmt : string) : result datetime :=
  match parse fmt s (mkDatetime 1900 1 1 0 0 0) with
  | inl Mismatch =>
      Raise ValueError
        ("time data '" +:+ s +:+ "' does not match format '" +:+ fmt +:+ "'")
  | inl (BadDirective d) =>
      Raise ValueError
        ("'" +:+ String d EmptyString +:+ "' is a bad directive in format '"
         +:+ fmt +:+ "'")
  | inl (Remains rest) =>
      Raise ValueError ("unconverted data remains: " +:+ rest)
  | inr t =>
      if day t <=? days_in_month (year t) (month t) then Ok t
      else Raise ValueError "day is out of range for month"
  end.

(** Days from 1970-01-01 to the civil date [y]-[m]-[d]. *)
Definition days_from_civil (y m d : Z) : Z :=
  let y' := if m <=? 2 then y - 1 else y in
  let era := y' / 400 in
  let yoe := y' - era * 400 in
  let doy := (153 * (if 2 <? m then m - 3 else m + 9) + 2) / 5 + d - 1 in
  let doe := yoe * 365 + yoe / 4 - yoe / 100 + doy in
  era * 146097 + doe - 719468.

Definition mktime (t : datetime) : result Z :=
  Ok (days_from_civil (year t) (month t) (day t) * 86400
      + hour t * 3600 + minute t * 60 + second t).

Definition archive (entries : list (string * zentry)) : ZipFile :=
  mkZipFile (list_to_map entries) (Some (mkFileObj None)).

(** The cells [read_csv] makes of the fields of a CSV file, for the
    columns the scenarios have: a column whose fields are all made of
    digits is read as integers; in any other column a field is text, or
    [nan] when it is empty. *)
Definition all_digits (s : string) : bool :=
  match read_digits (String.length s) s 0 with
  | Some (_, EmptyString) => negb (String.eqb s EmptyString)
  | _ => false
  end.

Definition to_int (s : string) : Z :=
  match read_digits (String.length s) s 0 with
  | Some (n, _) => n
  | None => 0
  end.

Definition integer_column (rs : list (list string)) (k : nat) : bool :=
  forallb (λ r, all_digits (nth k r EmptyString)) rs.

Definition read_field (rs : list (list string)) (k : nat) (s : string) : cell :=
  if integer_column rs k then Int (to_int s)
  else if String.eqb s EmptyString then NaN
  else Str s.

Definition frame (cols : list string) (rs : list (list string)) : DataFrame :=
  mkDataFrame cols (map (imap (read_field rs)) rs).

(** The environment in which ["sample-1.zip"] is [z] and
    ["example.csv"] reads as [d]; the process runs in [/work]. *)
Definition env (z : ZipFile) (d : DataFrame) : Env :=
  mkEnv
    (λ path, if decide (path = "sample-1.zip") then Ok z
             else Raise FileNotFoundError path)
    (λ path, if decide (path = "example.csv") then Ok d
             else Raise FileNotFoundError path)
    strptime mktime ["work"]
    (λ c, match c with
          | Int 1 | Int 2 | Bool true => Ok tt
          | _ => Raise OSError bad_descriptor_msg
          end).

Definition hello : bytes := list_byte_of_string "hello".

Definition iso : string := "%Y-%m-%dT%H:%M:%S".

Definition header : list string :=
  ["input"; "output"; "creation_date"; "modified_date"].

(** A world whose disk holds the root and the working directory. *)
Definition bare : World :=
  mkWorld (<[ ["work"] := Dir ]> {[ [] := Dir ]}) 1700000000 [].

(** The same with [/work/out] in place. *)
Definition with_out : World :=
  mkWorld (<[ ["work"; "out"] := Dir ]> (files bare)) 1700000000 [].

(** The session built by [ExtractZip("sample-1.zip", "example.csv")]. *)
Definition session (z : ZipFile) (d : DataFrame) : ExtractZip :=
  (init_default (env z d) new_object "sample-1.zip" "example.csv").2.

End Sample.

(** * Properties *)

(** ** Construction and the required columns *)

Lemma index_of_None (name : string) (cols : list string) :
  index_of name cols = None ↔ name ∉ cols.
Proof.
  induction cols as [|c cols IH]; simpl.
  - split; [intros _; apply not_elem_of_nil | done].
  - destruct (decide (c = name)) as [->|Hne].
    + split; [done | intros H; exfalso; apply H; left].
    + rewrite not_elem_of_cons. destruct (index_of name cols); simpl.
      * split; [done | intros [_ H]]. exfalso. by apply IH in H.
      * split; [intros _ | done]. split; [congruence | by apply IH].
Qed.

Lemma locate_missing (cols names : list string) :
  (∃ n, n ∈ names ∧ n ∉ cols) →
  ∃ k, k ∈ names ∧ (k ∉ cols) ∧ locate cols names = Raise KeyError k.
Proof.
  induction names as [|n names IH]; intros (x & Hin & Hx).
  - by apply elem_of_nil in Hin.
  - simpl. destruct (index_of n cols) as [i|] eqn:Hi.
    + assert (Hn : n ∈ cols).
      { destruct (decide (n ∈ cols)) as [|Hno]; [done|].
        apply index_of_None in Hno. congruence. }
      apply elem_of_cons in Hin as [->|Hin]; [done|].
      destruct IH as (k & Hk & Hkc & Hloc); [by exists x|].
      exists k. rewrite Hloc. split; [by right | done].
    + exists n. apply index_of_None in Hi. split; [left | done].
Qed.

Lemma init_ok (E : Env) (zp mp i o c m : string) (z : ZipFile) (d : DataFrame) :
  zipfile_ZipFile E zp = inr z →
  pd_read_csv E mp = inr d →
  __init__ E new_object zp mp i o c m =
    (Ok tt, mkExtractZip (Some z) (Some d) (Some i) (Some o) (Some c) (Some m)
              (Some false)).
Proof. intros Hz Hd. unfold __init__. by rewrite Hz, Hd. Qed.

(** C1, as the code has it: a manifest that lacks one of the four
    configured columns does not make construction fail.  [__init__]
    returns a complete, open session; the missing column surfaces as a
    [KeyError] naming it when [extract] is called, before the first tuple
    is processed: the world is left exactly as it was. *)
Theorem missing_column_surfaces_in_extract
    (E : Env) (zp mp i o c m : string) (z : ZipFile) (d : DataFrame) :
  zipfile_ZipFile E zp = inr z →
  pd_read_csv E mp = inr d →
  (∃ n, n ∈ [i; o; c; m] ∧ n ∉ columns d) →
  ∃ self,
    __init__ E new_object zp mp i o c m = (Ok tt, self) ∧
    constructed self ∧
    ∀ date_format w, ∃ k,
      k ∈ [i; o; c; m] ∧ (k ∉ columns d) ∧
      extract E self date_format w = (Raise KeyError k, w).
Proof.
  intros Hz Hd Hmiss. eexists. split; [by apply init_ok|].
  split; [by repeat split; simpl; eauto|].
  intros date_format w.
  destruct (locate_missing _ _ Hmiss) as (k & Hk & Hkc & Hloc).
  exists k. split_and!; [done..|].
  unfold extract, manifest_tuples, getitem, mbind, M_bind, getattr, lift, mret, M_ret.
  cbn -[locate]. by rewrite Hloc.
Qed.

(** The manifest of the scenario of C1: no [modified_date] column. *)
Lemma missing_column_surfaces_in_extract_witness :
  let z := Sample.archive [("a.txt", Stored Sample.hello)] in
  let d := Sample.frame ["input"; "output"; "creation_date"]
             [["a.txt"; "a.txt"; "2020-01-01T00:00:00"]] in
  ∃ self,
    init_default (Sample.env z d) new_object "sample-1.zip" "example.csv"
      = (Ok tt, self) ∧
    constructed self ∧
    ∀ date_format w, ∃ k,
      k ∈ ["input"; "output"; "creation_date"; "modified_date"] ∧
      (k ∉ columns d) ∧
      extract (Sample.env z d) self date_format w = (Raise KeyError k, w).
Proof.
  intros z d.
  apply (missing_column_surfaces_in_extract (Sample.env z d)
           "sample-1.zip" "example.csv" "input" "output" "creation_date"
           "modified_date" z d).
  - vm_compute; reflexivity.
  - vm_compute; reflexivity.
  - exists "modified_date". split.
    + apply list_elem_of_In. simpl. tauto.
    + intros H. apply list_elem_of_In in H. simpl in H.
      repeat destruct H as [H|H]; try discriminate H; exact H.
Defined.

(** C1 as stated fails: with the [modified_date] column missing,
    construction returns normally instead of raising. *)
Lemma missing_column_construction_succeeds :
  let z := Sample.archive [("a.txt", Stored Sample.hello)] in
  let d := Sample.frame ["input"; "output"; "creation_date"]
             [["a.txt"; "a.txt"; "2020-01-01T00:00:00"]] in
  ("modified_date" ∉ columns d) ∧
  (init_default (Sample.env z d) new_object "sample-1.zip" "example.csv").1
    = Ok tt.
Proof.
  split; [|reflexivity].
  intros H. apply list_elem_of_In in H. simpl in H.
  repeat destruct H as [H|H]; try discriminate H; exact H.
Qed.

(** ** close *)

Ltac unfold_M :=
  unfold mbind, M_bind, mret, M_ret, lift, raise, emit, getattr, to_epoch, print.

Lemma close_when_closed (self : ExtractZip) (w : World) :
  default true (_closed self) = true → close self w = (Ok tt, self, w).
Proof. intros H. unfold close. by rewrite H. Qed.

Lemma close_leaves_closed (self self1 : ExtractZip) (w w1 : World) (r : result unit) :
  close self w = (r, self1, w1) → default true (_closed self1) = true.
Proof.
  unfold close. destruct (_closed self) as [[]|] eqn:Hc; simpl.
  - intros [= <- <- <-]. by rewrite Hc.
  - destruct (zip_file self) as [z|]; [destruct (ZipFile_close z)|];
      by intros [= <- <- <-].
  - intros [= <- <- <-]. by rewrite Hc.
Qed.

Lemma init_failed_unflagged (E : Env) (zp mp i o c m : string) (e : exn)
    (self : ExtractZip) :
  __init__ E new_object zp mp i o c m = (inl e, self) → _closed self = None.
Proof.
  unfold __init__. destruct (zipfile_ZipFile E zp); [by intros [= <- <-]|].
  destruct (pd_read_csv E mp); [by intros [= <- <-] | discriminate].
Qed.

(** C9: a second or later [close], and a [close] on an object whose
    construction raised partway (the archive opened or not), return without
    raising and change neither the object nor the world; so does the
    finalizer [__del__]. *)
Theorem close_again_never_raises (E : Env) (self : ExtractZip) (w : World) :
  closed_before self ∨ construction_failed E self →
  close self w = (Ok tt, self, w) ∧ __del__ self w = (Ok tt, self, w).
Proof.
  intros H.
  assert (Hc : close self w = (Ok tt, self, w)).
  { apply close_when_closed. destruct H as [(s0 & w0 & r & w1 & H)|H].
    - by eapply close_leaves_closed.
    - destruct H as (zp & mp & i & o & c & m & e & H).
      by rewrite (init_failed_unflagged _ _ _ _ _ _ _ _ _ H). }
  split; [done|]. unfold __del__. by rewrite Hc.
Qed.

(** A session closed once, and an object whose archive never opened. *)
Lemma close_again_never_raises_witness :
  let z := Sample.archive [("a.txt", Stored Sample.hello)] in
  let d := Sample.frame Sample.header [] in
  let E := Sample.env z d in
  let closed := (close (Sample.session z d) Sample.bare).1.2 in
  (close closed Sample.bare = (Ok tt, closed, Sample.bare) ∧
   __del__ closed Sample.bare = (Ok tt, closed, Sample.bare)) ∧
  (close new_object Sample.bare = (Ok tt, new_object, Sample.bare) ∧
   __del__ new_object Sample.bare = (Ok tt, new_object, Sample.bare)).
Proof.
  intros z d E closed. split.
  - apply (close_again_never_raises E closed Sample.bare). left.
    exists (Sample.session z d), Sample.bare, (Ok tt), (log ZipClose Sample.bare).
    vm_compute; reflexivity.
  - apply (close_again_never_raises E new_object Sample.bare). right.
    exists "missing.zip", "example.csv", "input", "output", "creation_date",
      "modified_date", (Exn FileNotFoundError "missing.zip").
    vm_compute; reflexivity.
Defined.

(** C10: whatever the archive's own close does, the first [close] of an
    open session leaves [_closed] set; every later [close] returns at once
    with the object and the world untouched, so the release is not
    attempted again. *)
Theorem close_sets_flag_even_on_raise
    (self self1 : ExtractZip) (w w1 : World) (r : result unit) :
  _closed self = Some false →
  close self w = (r, self1, w1) →
  _closed self1 = Some true ∧ ∀ w2, close self1 w2 = (Ok tt, self1, w2).
Proof.
  intros Hopen Hclose.
  assert (Hflag : _closed self1 = Some true).
  { revert Hclose. unfold close. rewrite Hopen. simpl.
    destruct (zip_file self) as [z|]; [destruct (ZipFile_close z)|];
      by intros [= <- <- <-]. }
  split; [done|]. intros w2. apply close_when_closed. by rewrite Hflag.
Qed.

(** An open session whose file object raises on close. *)
Lemma close_sets_flag_even_on_raise_witness :
  let failing := mkZipFile ∅ (Some (mkFileObj (Some (Exn OSError "close")))) in
  let self := mkExtractZip (Some failing) (Some (Sample.frame Sample.header []))
                (Some "input") (Some "output") (Some "creation_date")
                (Some "modified_date") (Some false) in
  let self1 := set_closed true (set_zip_file (mkZipFile ∅ None) self) in
  close self Sample.bare = (Raise OSError "close", self1, log ZipClose Sample.bare) ∧
  _closed self1 = Some true ∧
  ∀ w2, close self1 w2 = (Ok tt, self1, w2).
Proof.
  intros failing self self1. split; [vm_compute; reflexivity|].
  apply (close_sets_flag_even_on_raise self self1 Sample.bare
           (log ZipClose Sample.bare) (Raise OSError "close"));
    vm_compute; reflexivity.
Defined.

(** ** The loop *)

Lemma for_each_cons {A} (x : A) (rest : list A) (body : A → M unit) (w : World) :
  for_each (x :: rest) body w =
    match body x w with
    | (inl e, w') => (inl e, w')
    | (inr _, w') => for_each rest body w'
    end.
Proof. reflexivity. Qed.

Lemma extract_unfold (E : Env) (self : ExtractZip) (date_format : string)
    (tuples : list (list cell)) (w : World) :
  manifest_tuples self w = (Ok tuples, w) →
  extract E self date_format w = for_each tuples (loop_body E self date_format) w.
Proof. intros H. unfold extract, mbind, M_bind. by rewrite H. Qed.

(** The iterable is read off the session; the world plays no part. *)
Lemma manifest_tuples_world (self : ExtractZip) (w : World) :
  ∃ r, ∀ w', manifest_tuples self w' = (r, w').
Proof.
  unfold manifest_tuples. unfold_M.
  destruct (df self), (input_col self), (output_col self),
    (creation_date_col self), (modified_date_col self); simpl; eauto.
  match goal with |- context [getitem ?d ?l] => destruct (getitem d l) end; eauto.
Qed.

Lemma manifest_tuples_fixed (self : ExtractZip) (w w' : World) (r : result (list (list cell))) :
  manifest_tuples self w = (r, w) → manifest_tuples self w' = (r, w').
Proof.
  destruct (manifest_tuples_world self w) as [r0 H].
  rewrite (H w), (H w'). by intros [= ->].
Qed.

Lemma fs_effects_log (e : event) (w : World) :
  fs_effects (calls (log e w)) =
    fs_effects (calls w) ++ (if is_fs_effect e then [e] else []).
Proof.
  unfold fs_effects, log. simpl. rewrite filter_app. f_equal.
  destruct (is_fs_effect e) eqn:He.
  - rewrite filter_cons_True; [done | simpl; by rewrite He].
  - rewrite filter_cons_False; [done | simpl; rewrite He; by intros []].
Qed.

(** One pass of the loop body, call by call. *)
Lemma loop_body_eq (E : Env) (self : ExtractZip) (date_format : string)
    (zipped out cd md : cell) (w : World) :
  loop_body E self date_format [zipped; out; cd; md] w =
    match epoch_of E cd date_format with
    | inl e => (inl e, w)
    | inr c =>
        match epoch_of E md date_format with
        | inl e => (inl e, w)
        | inr m =>
            let w1 := log (Print zipped out c m) w in
            match zip_file self with
            | None => (Raise AttributeError "zip_file", w1)
            | Some z =>
                let w2 := log (ZipRead zipped) w1 in
                match ZipFile_read z zipped with
                | inl e => (inl e, w2)
                | inr data =>
                    if endswith (str out) "/" then os_makedirs E out w2
                    else
                      match open_wb_write E out data w2 with
                      | (inl e, w3) => (inl e, w3)
                      | (inr _, w3) => os_utime E out (c, m) w3
                      end
                end
            end
        end
    end.
Proof.
  unfold loop_body. unfold_M.
  destruct (epoch_of E cd date_format); [done|].
  destruct (epoch_of E md date_format); [done|].
  destruct (zip_file self); [|done]. simpl.
  destruct (ZipFile_read _ _); [done|].
  by destruct (endswith _ _).
Qed.

(** ** extract after close *)

Lemma ZipFile_close_fp (z z' : ZipFile) (r : result unit) :
  ZipFile_close z = (r, z') → fp z' = None.
Proof.
  unfold ZipFile_close. destruct (fp z) eqn:Hfp; intros [= <- <-]; done.
Qed.

Lemma close_constructed (self closed : ExtractZip) (w w1 : World) (r : result unit) :
  constructed self →
  close self w = (r, closed, w1) →
  (∃ z, zip_file closed = Some z ∧ fp z = None) ∧
  _closed closed = Some true ∧
  ∀ w', manifest_tuples closed w' = manifest_tuples self w'.
Proof.
  intros ([z Hz] & _ & _ & _ & _ & _ & Hopen). unfold close.
  rewrite Hopen, Hz. simpl.
  destruct (ZipFile_close z) as [r0 z'] eqn:Hzc. intros [= <- <- <-].
  split; [|done]. exists z'. split; [done|]. by eapply ZipFile_close_fp.
Qed.

Lemma loop_body_closed_archive (E : Env) (self : ExtractZip) (z : ZipFile)
    (date_format : string) (row : list cell) (w : World) :
  zip_file self = Some z → fp z = None →
  ∃ e w', loop_body E self date_format row w = (inl e, w') ∧
    files w' = files w ∧
    fs_effects (calls w') = fs_effects (calls w) ∧
    ∀ zipped out cd md c m,
      row = [zipped; out; cd; md] →
      epoch_of E cd date_format = inr c →
      epoch_of E md date_format = inr m →
      e = Exn ValueError closed_archive_msg.
Proof.
  intros Hz Hfp.
  destruct row as [|zipped [|out [|cd [|md [|]]]]];
    try (eexists _, w; split; [reflexivity|]; split_and!; [done..|];
         intros; discriminate).
  rewrite loop_body_eq, Hz. unfold ZipFile_read. rewrite Hfp.
  destruct (epoch_of E cd date_format) as [e1|c] eqn:Hc.
  { eexists _, w. split; [reflexivity|]. split_and!; [done..|].
    intros ?????? [= <- <- <- <-]. congruence. }
  destruct (epoch_of E md date_format) as [e2|m] eqn:Hm.
  { eexists _, w. split; [reflexivity|]. split_and!; [done..|].
    intros ?????? [= <- <- <- <-]. congruence. }
  eexists _, _. split; [reflexivity|]. split_and!; [done| |done].
  rewrite !fs_effects_log. simpl. by rewrite !app_nil_r.
Qed.

(** C4, as the code has it: [extract] does not look at the session's
    state.  On a session that has been closed an empty manifest makes it
    return normally; with at least one tuple it raises on the first one,
    without any filesystem effect; the exception is the archive's
    [ValueError] for a closed archive once the dates of that tuple have
    parsed. *)
Theorem extract_on_closed_session
    (E : Env) (self closed : ExtractZip) (w0 w1 : World) (r0 : result unit)
    (date_format : string) (tuples : list (list cell)) (w : World) :
  constructed self →
  close self w0 = (r0, closed, w1) →
  manifest_tuples self w = (Ok tuples, w) →
  (tuples = [] → extract E closed date_format w = (Ok tt, w)) ∧
  (∀ row rest, tuples = row :: rest →
     ∃ e w', extract E closed date_format w = (inl e, w') ∧
       files w' = files w ∧
       fs_effects (calls w') = fs_effects (calls w) ∧
       ∀ zipped out cd md c m,
         row = [zipped; out; cd; md] →
         epoch_of E cd date_format = inr c →
         epoch_of E md date_format = inr m →
         e = Exn ValueError closed_archive_msg).
Proof.
  intros Hcons Hclose Hman.
  destruct (close_constructed _ _ _ _ _ Hcons Hclose) as ((z & Hz & Hfp) & _ & Hsame).
  rewrite <- Hsame in Hman. rewrite (extract_unfold _ _ _ _ _ Hman).
  split.
  - by intros ->.
  - intros row rest ->. rewrite for_each_cons.
    destruct (loop_body_closed_archive E closed z date_format row w Hz Hfp)
      as (e & w' & Hbody & Hrest).
    exists e, w'. by rewrite Hbody.
Qed.

(** A closed session with one tuple: the archive's [ValueError]. *)
Lemma extract_on_closed_session_witness :
  let z := Sample.archive [("a.txt", Stored Sample.hello)] in
  let d := Sample.frame Sample.header
             [["a.txt"; "a.txt"; "2020-01-01T00:00:00"; "2020-06-01T00:00:00"]] in
  let E := Sample.env z d in
  let closed := (close (Sample.session z d) Sample.bare).1.2 in
  ∃ e w', extract E closed Sample.iso Sample.bare = (inl e, w') ∧
    files w' = files Sample.bare ∧
    fs_effects (calls w') = fs_effects (calls Sample.bare) ∧
    ∀ zipped out cd md c m,
      map Str ["a.txt"; "a.txt"; "2020-01-01T00:00:00"; "2020-06-01T00:00:00"]
        = [zipped; out; cd; md] →
      epoch_of E cd Sample.iso = inr c →
      epoch_of E md Sample.iso = inr m →
      e = Exn ValueError closed_archive_msg.
Proof.
  intros z d E closed.
  refine (proj2 (extract_on_closed_session E (Sample.session z d) closed
                   Sample.bare (log ZipClose Sample.bare) (Ok tt) Sample.iso
                   (rows d) Sample.bare _ _ _) _ [] eq_refl).
  - unfold constructed. simpl. repeat split; eauto.
  - vm_compute; reflexivity.
  - vm_compute; reflexivity.
Defined.

(** C4 as stated fails: on a closed session with an empty manifest
    [extract] raises nothing. *)
Lemma extract_on_closed_empty_manifest_returns :
  let z := Sample.archive [("a.txt", Stored Sample.hello)] in
  let d := Sample.frame Sample.header [] in
  let closed := (close (Sample.session z d) Sample.bare).1.2 in
  _closed closed = Some true ∧
  (∃ a, zip_file closed = Some a ∧ fp a = None) ∧
  extract (Sample.env z d) closed Sample.iso Sample.bare = (Ok tt, Sample.bare).
Proof. split_and!; [reflexivity | by eexists | reflexivity]. Qed.

(** ** The filesystem operations *)

Lemma is_dir_true (fs : fsys) (q : fpath) :
  is_dir fs q = true ↔ fs !! q = Some Dir.
Proof. unfold is_dir. destruct (fs !! q) as [[|]|]; by split. Qed.


Lemma check_dirs_ok (fs : fsys) (name : string) (ds : list fpath) :
  check_dirs fs name ds = inr tt ↔ Forall (λ d, fs !! d = Some Dir) ds.
Proof.
  induction ds as [|d ds IH]; simpl.
  - by split.
  - rewrite Forall_cons. destruct (fs !! d) as [[|]|]; try (split; [done|intros [? _]; done]).
    rewrite IH. split; [done | by intros [_ ?]].
Qed.

Lemma check_dirs_inr (fs : fsys) (name : string) (ds : list fpath) (u : unit) :
  check_dirs fs name ds = inr u → Forall (λ d, fs !! d = Some Dir) ds.
Proof. destruct u. apply check_dirs_ok. Qed.

(** A lookup through [ds] sees the kinds of the nodes only. *)
Lemma check_dirs_kinds (fs fs' : fsys) (name : string) (ds : list fpath) :
  (∀ d, d ∈ ds → is_dir fs' d = is_dir fs d ∧ is_file fs' d = is_file fs d) →
  check_dirs fs' name ds = check_dirs fs name ds.
Proof.
  induction ds as [|d ds IH]; intros H; [done|]. simpl.
  destruct (H d) as [Hd Hf]; [left|]. unfold is_dir, is_file in Hd, Hf.
  rewrite IH; [|intros; apply H; by right].
  destruct (fs !! d) as [[|]|], (fs' !! d) as [[|]|]; done.
Qed.

Lemma fs_open_write_inr (cwd : fpath) (now : Z) (p : string) (data : bytes)
    (fs fs1 : fsys) :
  fs_open_write cwd now p data fs = inr fs1 ↔
    writable p ∧
    Forall (λ d, fs !! d = Some Dir) (ancestors cwd p) ∧
    fs !! resolve cwd p ≠ Some Dir ∧
    fs1 = <[resolve cwd p :=
              File data (match fs !! resolve cwd p with
                         | Some (File _ a _) => a
                         | _ => now
                         end) now]> fs.
Proof.
  unfold fs_open_write, writable.
  destruct (decide (p = EmptyString));
    [split; [done | by intros ((? & ? & ? & ?) & ? & ? & ?)]|].
  destruct (decide (components p = []));
    [split; [done | by intros ((? & ? & ? & ?) & ? & ? & ?)]|].
  destruct (check_dirs fs p (ancestors cwd p)) as [e|[]] eqn:Hchk.
  { split; [done|]. intros (_ & H & _). apply (check_dirs_ok fs p) in H.
    rewrite H in Hchk. done. }
  apply check_dirs_ok in Hchk.
  destruct (decide (leaf p = "." ∨ leaf p = ".."));
    [split; [done | by intros ((? & ? & ? & ?) & ? & ? & ?)]|].
  destruct (fs !! resolve cwd p) as [[|d0 a0 m0]|] eqn:Ht.
  - split; [done | by intros ((? & ? & ? & ?) & ? & ? & ?)].
  - destruct (endswith p "/");
      [split; [done | by intros ((? & ? & ? & ?) & ? & ? & ?)]|].
    split; [intros [= <-]; by split_and! | by intros (_ & _ & _ & ->)].
  - destruct (endswith p "/");
      [split; [done | by intros ((? & ? & ? & ?) & ? & ? & ?)]|].
    split; [intros [= <-]; by split_and! | by intros (_ & _ & _ & ->)].
Qed.

(** The exception of a failed write does not depend on the clock. *)
Lemma fs_open_write_inl (cwd : fpath) (now now' : Z) (p : string) (data : bytes)
    (fs : fsys) (e : exn) :
  fs_open_write cwd now p data fs = inl e →
  fs_open_write cwd now' p data fs = inl e.
Proof.
  unfold fs_open_write.
  destruct (decide (p = EmptyString)); [done|].
  destruct (decide (components p = [])); [done|].
  destruct (check_dirs _ _ _); [done|].
  destruct (decide (leaf p = "." ∨ leaf p = "..")); [done|].
  destruct (fs !! resolve cwd p) as [[|]|]; destruct (endswith p "/"); done.
Qed.

(** After a successful write, [utime] on the same path succeeds and sets
    both times. *)
Lemma fs_utime_after_write (cwd : fpath) (now : Z) (p : string) (data : bytes)
    (a m : Z) (fs fs1 : fsys) :
  fs_open_write cwd now p data fs = inr fs1 →
  fs_utime cwd p a m fs1 = inr (<[resolve cwd p := File data a m]> fs).
Proof.
  intros (Hw & Hdirs & Hnd & ->)%fs_open_write_inr.
  destruct Hw as (Hne & _ & _ & Hend). unfold fs_utime.
  rewrite decide_False by done.
  assert (Hchk : check_dirs (<[resolve cwd p := File data
                   (match fs !! resolve cwd p with
                    | Some (File _ a0 _) => a0 | _ => now end) now]> fs)
                   p (ancestors cwd p) = inr tt).
  { apply check_dirs_ok. eapply Forall_impl; [exact Hdirs|]. simpl.
    intros d Hd. rewrite lookup_insert_ne; [done|]. congruence. }
  rewrite Hchk, lookup_insert_eq, Hend. by rewrite insert_insert_eq.
Qed.

Lemma write_then_utime_inr (cwd : fpath) (p : string) (data : bytes) (a m : Z)
    (fs fs' : fsys) :
  write_then_utime cwd p data a m fs = inr fs' ↔
    writable p ∧
    Forall (λ d, fs !! d = Some Dir) (ancestors cwd p) ∧
    fs !! resolve cwd p ≠ Some Dir ∧
    fs' = <[resolve cwd p := File data a m]> fs.
Proof.
  unfold write_then_utime.
  destruct (fs_open_write cwd 0 p data fs) as [e|fs1] eqn:Hw.
  - split; [done|]. intros (H1 & H2 & H3 & _).
    pose proof (proj2 (fs_open_write_inr cwd 0 p data fs _)
                  (conj H1 (conj H2 (conj H3 eq_refl)))) as Hx.
    by rewrite Hw in Hx.
  - rewrite (fs_utime_after_write _ _ _ _ _ _ _ _ Hw).
    apply fs_open_write_inr in Hw as (H1 & H2 & H3 & _).
    split; [intros [= <-]; by split_and! | by intros (_ & _ & _ & ->)].
Qed.

(** The write at the world's clock, then [utime]: the clock leaves no
    trace. *)
Lemma write_utime_any_clock (cwd : fpath) (now : Z) (p : string) (data : bytes)
    (a m : Z) (fs : fsys) :
  match fs_open_write cwd now p data fs with
  | inl e => inl e
  | inr fs1 => fs_utime cwd p a m fs1
  end = write_then_utime cwd p data a m fs.
Proof.
  unfold write_then_utime.
  destruct (fs_open_write cwd now p data fs) as [e|fs1] eqn:Hw.
  - by rewrite (fs_open_write_inl _ _ 0 _ _ _ _ Hw).
  - rewrite (fs_utime_after_write _ _ _ _ _ _ _ _ Hw).
    apply fs_open_write_inr in Hw as (H1 & H2 & H3 & _).
    destruct (fs_open_write cwd 0 p data fs) as [e|fs0] eqn:Hw0.
    + pose proof (proj2 (fs_open_write_inr cwd 0 p data fs _)
                    (conj H1 (conj H2 (conj H3 eq_refl)))) as Hx.
      by rewrite Hw0 in Hx.
    + by rewrite (fs_utime_after_write _ _ _ _ _ _ _ _ Hw0).
Qed.

Lemma mkdir_all_lookup (ds : list fpath) (fs : fsys) (q : fpath) :
  mkdir_all ds fs !! q =
    match fs !! q with
    | Some x => Some x
    | None => if decide (q ∈ ds) then Some Dir else None
    end.
Proof.
  revert fs. induction ds as [|d ds IH]; intros fs; cbn [mkdir_all].
  - rewrite decide_False by apply not_elem_of_nil. by destruct (fs !! q).
  - rewrite IH. destruct (fs !! d) eqn:Hd.
    + destruct (fs !! q) eqn:Hq; [done|].
      assert (q ≠ d) by congruence.
      destruct (decide (q ∈ ds)) as [Hin|Hin].
      * rewrite decide_True; [done | by right].
      * rewrite decide_False; [done|]. rewrite not_elem_of_cons. done.
    + destruct (decide (q = d)) as [->|Hne].
      * rewrite lookup_insert_eq, Hd. rewrite decide_True; [done | left].
      * rewrite lookup_insert_ne by done. destruct (fs !! q); [done|].
        destruct (decide (q ∈ ds)) as [Hin|Hin].
        -- rewrite decide_True; [done | by right].
        -- rewrite decide_False; [done|]. rewrite not_elem_of_cons. done.
Qed.


Lemma is_file_insert_dir (fs : fsys) (d q : fpath) :
  is_file fs d = false → is_file (<[d := Dir]> fs) q = is_file fs q.
Proof.
  intros Hd. unfold is_file. destruct (decide (q = d)) as [->|Hne].
  - rewrite lookup_insert_eq. unfold is_file in Hd. by rewrite Hd.
  - by rewrite lookup_insert_ne.
Qed.

(** The walk keeps every node that exists. *)
Lemma makedirs_walk_keeps (name : string) (ds : list fpath) (fs : fsys)
    (q : fpath) (x : node) :
  fs !! q = Some x → (makedirs_walk name ds fs).2 !! q = Some x.
Proof.
  revert fs. induction ds as [|d ds IH]; intros fs Hq; [done|]. simpl.
  destruct (fs !! d) as [[|]|] eqn:Hd; [by apply IH|done|].
  apply IH. rewrite lookup_insert_ne; [done|]. congruence.
Qed.

(** What it adds are directories, at locations of the walk. *)
Lemma makedirs_walk_new (name : string) (ds : list fpath) (fs : fsys)
    (q : fpath) (x : node) :
  (makedirs_walk name ds fs).2 !! q = Some x →
  fs !! q = Some x ∨ (fs !! q = None ∧ x = Dir ∧ q ∈ ds).
Proof.
  revert fs. induction ds as [|d ds IH]; intros fs; simpl; [by left|].
  destruct (fs !! d) as [[|]|] eqn:Hd.
  - intros [H|(H1 & H2 & H3)]%IH; [by left|]. right. split_and!; [done..|by right].
  - by left.
  - intros [H|(H1 & H2 & H3)]%IH.
    + destruct (decide (q = d)) as [->|Hne].
      * rewrite lookup_insert_eq in H. injection H as <-.
        right. split_and!; [done..|left].
      * rewrite lookup_insert_ne in H by done. by left.
    + destruct (decide (q = d)) as [->|Hne].
      * by rewrite lookup_insert_eq in H1.
      * rewrite lookup_insert_ne in H1 by done.
        right. split_and!; [done..|by right].
Qed.

(** With no regular file on the way the walk completes and makes every
    missing location. *)
Lemma makedirs_walk_ok (name : string) (ds : list fpath) (fs : fsys) :
  Forall (λ d, is_file fs d = false) ds →
  makedirs_walk name ds fs = (Ok tt, mkdir_all ds fs).
Proof.
  revert fs. induction ds as [|d ds IH]; intros fs Hall; [done|].
  apply Forall_cons in Hall as [Hd Hall]. simpl. unfold is_file in Hd.
  destruct (fs !! d) as [[|]|] eqn:Hfd; [by apply IH|done|].
  apply IH. eapply Forall_impl; [exact Hall|]. simpl. intros q Hq.
  rewrite is_file_insert_dir; [done|]. unfold is_file. by rewrite Hfd.
Qed.

(** A regular file on the way makes it raise. *)
Lemma makedirs_walk_file (name : string) (ds : list fpath) (fs : fsys) :
  ¬ Forall (λ d, is_file fs d = false) ds →
  ∃ e, (makedirs_walk name ds fs).1 = inl e.
Proof.
  revert fs. induction ds as [|d ds IH]; intros fs Hnot.
  - exfalso. apply Hnot. constructor.
  - simpl. destruct (fs !! d) as [[|]|] eqn:Hfd.
    + apply IH. intros Hall. apply Hnot. constructor; [|done].
      unfold is_file. by rewrite Hfd.
    + destruct ds; by eexists.
    + apply IH. intros Hall. apply Hnot.
      assert (Hd : is_file fs d = false) by (unfold is_file; by rewrite Hfd).
      constructor; [done|].
      eapply Forall_impl; [exact Hall|]. simpl. intros q.
      by rewrite is_file_insert_dir.
Qed.

(** A walk that raised raises the same way on the disk it left, and
    leaves it as it is. *)
Lemma makedirs_walk_again (name : string) (ds : list fpath) (fs fs' : fsys)
    (e : exn) :
  makedirs_walk name ds fs = (inl e, fs') →
  makedirs_walk name ds fs' = (inl e, fs').
Proof.
  revert fs. induction ds as [|d ds IH]; intros fs; simpl; [done|].
  destruct (fs !! d) as [[|]|] eqn:Hd.
  - intros H.
    pose proof (makedirs_walk_keeps name ds fs d Dir Hd) as Hk.
    rewrite H in Hk. simpl in Hk. rewrite Hk. by eapply IH.
  - intros [= <- <-]. by rewrite Hd.
  - intros H.
    pose proof (makedirs_walk_keeps name ds (<[d := Dir]> fs) d Dir
                  (lookup_insert_eq _ _ _)) as Hk.
    rewrite H in Hk. simpl in Hk. rewrite Hk. by eapply IH.
Qed.

Lemma fs_makedirs_ok (cwd : fpath) (p : string) (fs fs' : fsys) :
  fs_makedirs cwd p fs = (Ok tt, fs') ↔
    p ≠ EmptyString ∧
    Forall (λ d, is_file fs d = false) (visited cwd p) ∧
    fs' = mkdir_all (visited cwd p) fs.
Proof.
  unfold fs_makedirs.
  destruct (decide (p = EmptyString)); [split; [done | by intros (? & ? & ?)]|].
  destruct (decide (Forall (λ d, is_file fs d = false) (visited cwd p)))
    as [Hall|Hnot].
  - rewrite (makedirs_walk_ok _ _ _ Hall).
    split; [by intros [= <-] | by intros (_ & _ & ->)].
  - destruct (makedirs_walk_file p _ _ Hnot) as [e He].
    split; [intros H; by rewrite H in He | by intros (_ & ? & _)].
Qed.

(** A failed [os.makedirs] keeps what exists, adds directories on the
    way only, and fails the same way when called again. *)
Lemma fs_makedirs_failed (cwd : fpath) (p : string) (fs fs' : fsys) (e : exn) :
  fs_makedirs cwd p fs = (inl e, fs') →
  (∀ q x, fs !! q = Some x → fs' !! q = Some x) ∧
  (∀ q x, fs' !! q = Some x →
     fs !! q = Some x ∨ (fs !! q = None ∧ x = Dir ∧ q ∈ visited cwd p)) ∧
  fs_makedirs cwd p fs' = (inl e, fs').
Proof.
  unfold fs_makedirs.
  destruct (decide (p = EmptyString)).
  { intros [= <- <-]. split_and!; [done| |done]. intros; by left. }
  intros H. split_and!.
  - intros q x Hq.
    pose proof (makedirs_walk_keeps p (visited cwd p) fs q x Hq) as Hk.
    by rewrite H in Hk.
  - intros q x Hq. apply (makedirs_walk_new p). by rewrite H.
  - by eapply makedirs_walk_again.
Qed.


(** A call that raises is not undone: with [d] missing and [f] a regular
    file, [os.makedirs("d/../f/", exist_ok=True)] makes [d] and then
    raises. *)
Example fs_makedirs_stops_at_file :
  let fs := <[ ["work"; "f"] := File [] 0 0 ]> (files Sample.bare) in
  fs_makedirs ["work"] "d/../f/" fs =
    (Raise FileExistsError "d/../f/", <[ ["work"; "d"] := Dir ]> fs).
Proof. vm_compute; reflexivity. Qed.

(** *** The calls in the world *)

Lemma os_makedirs_eq (E : Env) (p : string) (w : World) :
  os_makedirs E (Str p) w =
    ((fs_makedirs (cwd E) p (files w)).1,
     mkWorld (fs_makedirs (cwd E) p (files w)).2 (clock w)
       (calls w ++ [Makedirs (Str p)])).
Proof.
  unfold os_makedirs, on_files_partial. unfold_M. simpl.
  by destruct (fs_makedirs (cwd E) p (files w)).
Qed.

Lemma open_wb_write_eq (E : Env) (p : string) (data : bytes) (w : World) :
  open_wb_write E (Str p) data w =
    match fs_open_write (cwd E) (clock w) p data (files w) with
    | inl e => (inl e, log (OpenWrite (Str p) data) w)
    | inr fs' =>
        (Ok tt, mkWorld fs' (clock w) (calls w ++ [OpenWrite (Str p) data]))
    end.
Proof.
  unfold open_wb_write, on_files. unfold_M. simpl.
  by destruct (fs_open_write (cwd E) (clock w) p data (files w)).
Qed.

Lemma os_utime_eq (E : Env) (p : string) (a m : Z) (w : World) :
  os_utime E (Str p) (a, m) w =
    match fs_utime (cwd E) p a m (files w) with
    | inl e => (inl e, log (Utime (Str p) a m) w)
    | inr fs' => (Ok tt, mkWorld fs' (clock w) (calls w ++ [Utime (Str p) a m]))
    end.
Proof.
  unfold os_utime, on_files. unfold_M. simpl.
  by destruct (fs_utime (cwd E) p a m (files w)).
Qed.

(** Read the outcome and the final world off an evaluated call. *)
Ltac returned :=
  let H := fresh in intros H; simplify_eq H; intros; subst; simpl.

(** The loop body and its view from the disk agree: same outcome, same
    files, and the clock is not moved. *)
Lemma loop_body_run (E : Env) (self : ExtractZip) (date_format : string)
    (row : list cell) (w w' : World) (r : result unit) :
  loop_body E self date_format row w = (r, w') →
  clock w' = clock w ∧
  row_fs E self date_format row (files w) = (r, files w').
Proof.
  unfold row_fs.
  destruct row as [|zipped [|out [|cd [|md [|]]]]]; try by returned.
  rewrite loop_body_eq. unfold row_action.
  destruct (epoch_of E cd date_format) as [e|c]; [by returned|].
  destruct (epoch_of E md date_format) as [e|m]; [by returned|].
  destruct (zip_file self) as [z|]; [|by returned].
  destruct (ZipFile_read z zipped) as [e|data]; [by returned|].
  simpl. destruct (endswith (str out) "/"); destruct out as [p| |n|b]; simpl;
    try by returned.
  - rewrite os_makedirs_eq. simpl.
    destruct (fs_makedirs (cwd E) p (files w)); by returned.
  - rewrite open_wb_write_eq. simpl.
    rewrite <- (write_utime_any_clock (cwd E) (clock w)).
    destruct (fs_open_write (cwd E) (clock w) p data (files w)) as [e|fs1] eqn:Hw;
      [by returned|].
    rewrite os_utime_eq. simpl.
    rewrite (fs_utime_after_write _ _ _ _ c m _ _ Hw). by returned.
  - unfold open_wb_write, os_utime. unfold_M. simpl.
    destruct (open_number E (Int n)); by returned.
  - unfold open_wb_write, os_utime. unfold_M. simpl.
    destruct (open_number E (Bool b)); by returned.
Qed.

(** The loop and its view from the disk. *)
Lemma for_each_run (E : Env) (self : ExtractZip) (date_format : string)
    (tuples : list (list cell)) (w w' : World) (r : result unit) :
  for_each tuples (loop_body E self date_format) w = (r, w') →
  clock w' = clock w ∧ run_fs E self date_format tuples (files w) = (r, files w').
Proof.
  revert w. induction tuples as [|row rest IH]; intros w.
  - by returned.
  - rewrite for_each_cons. simpl.
    destruct (loop_body E self date_format row w) as [[e|[]] w1] eqn:Hb;
      apply loop_body_run in Hb as [Hclk Hb]; rewrite Hb.
    + by returned.
    + intros H. apply IH in H as [Hc H]. split; [congruence | done].
Qed.

Lemma for_each_app {A} (xs ys : list A) (body : A → M unit) (w : World) :
  for_each (xs ++ ys) body w =
    match for_each xs body w with
    | (inl e, w') => (inl e, w')
    | (inr _, w') => for_each ys body w'
    end.
Proof.
  revert w. induction xs as [|x xs IH]; intros w; [done|].
  rewrite <- app_comm_cons, !for_each_cons.
  destruct (body x w) as [[e|[]] w1]; [done|]. apply IH.
Qed.

(** ** Dates that do not parse *)

(** C5, as the code has it: when a date of some tuple does not parse,
    [extract] raises the very exception the date conversion produced for
    that raw value and format (nothing is added to it), and the world is
    the one the earlier tuples left: neither this tuple nor a later one
    has had any effect, and nothing is rolled back. *)
Theorem bad_date_aborts_run
    (E : Env) (self : ExtractZip) (date_format : string)
    (pre post : list (list cell)) (zipped out cd md : cell)
    (w w1 : World) (e : exn) :
  manifest_tuples self w = (Ok (pre ++ [zipped; out; cd; md] :: post), w) →
  for_each pre (loop_body E self date_format) w = (Ok tt, w1) →
  epoch_of E cd date_format = inl e ∨
    (is_Some (inr_opt (epoch_of E cd date_format)) ∧
     epoch_of E md date_format = inl e) →
  extract E self date_format w = (inl e, w1).
Proof.
  intros Hman Hpre Hbad.
  rewrite (extract_unfold _ _ _ _ _ Hman), for_each_app, Hpre, for_each_cons.
  rewrite loop_body_eq.
  destruct Hbad as [->|[[c Hc] Hm]]; [done|].
  destruct (epoch_of E cd date_format); [done|]. by rewrite Hm.
Qed.

(** The second of two tuples has a bad modified date: the file of the
    first stays, the exception is [strptime]'s. *)
Lemma bad_date_aborts_run_witness :
  let z := Sample.archive [("a.txt", Stored Sample.hello)] in
  let good := ["a.txt"; "a.txt"; "2020-01-01T00:00:00"; "2020-06-01T00:00:00"] in
  let bad := ["a.txt"; "b.txt"; "2020-01-01T00:00:00"; "June"] in
  let d := Sample.frame Sample.header [good; bad] in
  let E := Sample.env z d in
  let w1 := (for_each [map Str good] (loop_body E (Sample.session z d) Sample.iso)
               Sample.bare).2 in
  extract E (Sample.session z d) Sample.iso Sample.bare =
    (Raise ValueError
       "time data 'June' does not match format '%Y-%m-%dT%H:%M:%S'", w1) ∧
  files w1 !! ["work"; "a.txt"] = Some (File Sample.hello 1577836800 1590969600) ∧
  files w1 !! ["work"; "b.txt"] = None.
Proof.
  intros z good bad d E w1. split; [|split; vm_compute; reflexivity].
  apply (bad_date_aborts_run E (Sample.session z d) Sample.iso
           [map Str good] [] (Str "a.txt") (Str "b.txt")
           (Str "2020-01-01T00:00:00") (Str "June") Sample.bare w1).
  - vm_compute; reflexivity.
  - vm_compute; reflexivity.
  - right. split; [exists 1577836800 | ]; vm_compute; reflexivity.
Defined.

(** C5 as stated fails: the exception does not tell the row or the
    field.  A bad creation date in the first tuple and the same bad
    modified date in the second tuple raise the same exception. *)
Lemma bad_date_error_has_no_row_or_field :
  let z := Sample.archive [("a.txt", Stored Sample.hello)] in
  let d0 := Sample.frame Sample.header
              [["a.txt"; "a.txt"; "June"; "2020-06-01T00:00:00"]] in
  let d1 := Sample.frame Sample.header
              [["a.txt"; "a.txt"; "2020-01-01T00:00:00"; "2020-06-01T00:00:00"];
               ["a.txt"; "b.txt"; "2020-01-01T00:00:00"; "June"]] in
  let e := Exn ValueError
             "time data 'June' does not match format '%Y-%m-%dT%H:%M:%S'" in
  (extract (Sample.env z d0) (Sample.session z d0) Sample.iso Sample.bare).1
    = inl e ∧
  (extract (Sample.env z d1) (Sample.session z d1) Sample.iso Sample.bare).1
    = inl e.
Proof. split; reflexivity. Qed.

(** ** One effect per tuple *)



Lemma manifest_tuples_length (self : ExtractZip) (d : DataFrame)
    (tuples : list (list cell)) (w : World) :
  df self = Some d →
  manifest_tuples self w = (Ok tuples, w) →
  length tuples = length (rows d).
Proof.
  intros Hd. unfold manifest_tuples. unfold_M. rewrite Hd.
  destruct (input_col self), (output_col self), (creation_date_col self),
    (modified_date_col self); simpl; try done.
  unfold getitem. destruct (locate _ _); [done|]. returned.
  unfold itertuples. simpl. by rewrite length_map.
Qed.

(** ** Directory tuples *)









Example str_int_samples :
  str_int 0 = "0" ∧ str_int 7 = "7" ∧ str_int 2020 = "2020" ∧
  str_int (-15) = "-15".
Proof. split_and!; reflexivity. Qed.








(** ** File tuples *)

(** What a file tuple does to the disk. *)
Lemma row_fs_file (E : Env) (self : ExtractZip) (z : ZipFile) (date_format : string)
    (zipped out cd md : cell) (fs : fsys) :
  zip_file self = Some z →
  endswith (str out) "/" = false →
  row_fs E self date_format [zipped; out; cd; md] fs =
    match epoch_of E cd date_format with
    | inl e => (inl e, fs)
    | inr c =>
        match epoch_of E md date_format with
        | inl e => (inl e, fs)
        | inr m =>
            match ZipFile_read z zipped with
            | inl e => (inl e, fs)
            | inr data => do_action E (WriteFile out data c m) fs
            end
        end
    end.
Proof.
  intros Hz Hend. unfold row_fs, row_action. rewrite Hz, Hend.
  destruct (epoch_of E cd date_format); [done|].
  destruct (epoch_of E md date_format); [done|].
  by destruct (ZipFile_read z zipped).
Qed.

Lemma file_tuple_calls (E : Env) (self : ExtractZip) (date_format : string)
    (zipped out cd md : cell) (w w' : World) (r : result unit) :
  endswith (str out) "/" = false →
  loop_body E self date_format [zipped; out; cd; md] w = (r, w') →
  ∃ evs, calls w' = calls w ++ evs ∧
    Forall (λ ev, is_makedirs ev = false) evs.
Proof.
  intros Hend. rewrite loop_body_eq, Hend.
  destruct (epoch_of E cd date_format) as [e|c].
  { returned. exists []. by rewrite app_nil_r. }
  destruct (epoch_of E md date_format) as [e|m].
  { returned. exists []. by rewrite app_nil_r. }
  destruct (zip_file self) as [z|].
  2:{ returned. eexists [_]. split; [done | by repeat constructor]. }
  destruct (ZipFile_read z zipped) as [e|data].
  { returned. eexists [_; _]. rewrite <- app_assoc.
    split; [done | by repeat constructor]. }
  destruct out as [p| |n|b].
  2:{ returned. eexists [_; _; _]. rewrite <- !app_assoc.
      split; [done | by repeat constructor]. }
  2,3: unfold open_wb_write, os_utime; unfold_M; simpl;
    destruct (open_number E _); returned;
    [eexists [_; _; _] | eexists [_; _; _; _]]; rewrite <- !app_assoc;
    (split; [done | by repeat constructor]).
  cbv zeta. rewrite open_wb_write_eq. simpl.
  destruct (fs_open_write _ _ _ _ _).
  { returned. eexists [_; _; _]. rewrite <- !app_assoc.
    split; [done | by repeat constructor]. }
  rewrite os_utime_eq. simpl.
  destruct (fs_utime _ _ _ _ _); returned.
  all: eexists [_; _; _; _]; rewrite <- !app_assoc.
  all: split; [done | by repeat constructor].
Qed.

(** C2, as the code has it: a tuple whose destination does not end with
    the separator makes no directory at all: [os.makedirs] is not called
    and the directories on disk stay the same.  When a directory on the
    way to the destination is missing the tuple raises; whenever it
    raises the disk is left as it was.  When it completes, the disk
    differs in the destination alone, which is a regular file holding
    exactly the bytes read from the archive, whatever was there, with the
    two parsed dates as its times; it completes whenever the dates parse,
    the entry can be read, the directories on the way exist and the
    destination is not a directory. *)
Theorem file_tuple
    (E : Env) (self : ExtractZip) (z : ZipFile) (date_format : string)
    (zipped out cd md : cell) (w w' : World) (r : result unit) :
  zip_file self = Some z →
  endswith (str out) "/" = false →
  loop_body E self date_format [zipped; out; cd; md] w = (r, w') →
  ∃ evs, calls w' = calls w ++ evs ∧
    Forall (λ ev, is_makedirs ev = false) evs ∧
    (∀ q, files w' !! q = Some Dir ↔ files w !! q = Some Dir) ∧
    (r ≠ Ok tt → files w' = files w) ∧
    (∀ p, out = Str p →
       ¬ Forall (λ d, files w !! d = Some Dir) (ancestors (cwd E) p) →
       r ≠ Ok tt) ∧
    (r = Ok tt →
       ∃ p data c m, out = Str p ∧
         ZipFile_read z zipped = inr data ∧
         epoch_of E cd date_format = inr c ∧
         epoch_of E md date_format = inr m ∧
         files w' = <[resolve (cwd E) p := File data c m]> (files w)) ∧
    (∀ p data c m, out = Str p →
       epoch_of E cd date_format = inr c →
       epoch_of E md date_format = inr m →
       ZipFile_read z zipped = inr data →
       writable p →
       Forall (λ d, files w !! d = Some Dir) (ancestors (cwd E) p) →
       files w !! resolve (cwd E) p ≠ Some Dir →
       r = Ok tt).
Proof.
  intros Hz Hend Hbody.
  destruct (file_tuple_calls _ _ _ _ _ _ _ _ _ _ Hend Hbody) as (evs & Hcalls & Hno).
  exists evs. split; [done|]. split; [done|].
  apply loop_body_run in Hbody as [_ Hrun].
  rewrite (row_fs_file _ _ _ _ _ _ _ _ _ Hz Hend) in Hrun.
  destruct (epoch_of E cd date_format) as [e|c].
  { injection Hrun as <- <-. split_and!; try done. }
  destruct (epoch_of E md date_format) as [e|m].
  { injection Hrun as <- <-. split_and!; try done. }
  destruct (ZipFile_read z zipped) as [e|data].
  { injection Hrun as <- <-. split_and!; try done. }
  destruct out as [p| |n|b]; simpl in Hrun.
  2:{ injection Hrun as <- <-. split_and!; try done. }
  2,3: destruct (open_number E _); injection Hrun as <- <-;
    split_and!; try done.
  destruct (write_then_utime (cwd E) p data c m (files w)) as [e|fs'] eqn:Hwr.
  - injection Hrun as <- <-. split_and!; try done.
    intros p' data' c' m' [= <-] [= <-] [= <-] [= <-] Hw Hdirs Ht.
    pose proof (proj2 (write_then_utime_inr (cwd E) p data c m (files w) _)
                  (conj Hw (conj Hdirs (conj Ht eq_refl)))) as Hx.
    by rewrite Hwr in Hx.
  - injection Hrun as <- <-.
    apply write_then_utime_inr in Hwr as (Hw & Hdirs & Ht & ->).
    split_and!; try done.
    + intros q. destruct (decide (q = resolve (cwd E) p)) as [->|Hne].
      * rewrite lookup_insert_eq. split; [done | by intros ?].
      * by rewrite lookup_insert_ne.
    + by intros p' [= <-] Hmiss.
    + intros _. by exists p, data, c, m.
Qed.

(** The tuple for [out/a.txt] with [/work/out] in place. *)
Lemma file_tuple_witness :
  let z := Sample.archive [("a.txt", Stored Sample.hello)] in
  let d := Sample.frame Sample.header
             [["a.txt"; "out/a.txt"; "2020-01-01T00:00:00"; "2020-06-01T00:00:00"]] in
  let E := Sample.env z d in
  let self := Sample.session z d in
  let row := map Str ["a.txt"; "out/a.txt"; "2020-01-01T00:00:00";
                      "2020-06-01T00:00:00"] in
  let w := Sample.with_out in
  let r := (loop_body E self Sample.iso row w).1 in
  let w' := (loop_body E self Sample.iso row w).2 in
  r = Ok tt ∧
  ∃ evs, calls w' = calls w ++ evs ∧
    Forall (λ ev, is_makedirs ev = false) evs ∧
    (∀ q, files w' !! q = Some Dir ↔ files w !! q = Some Dir) ∧
    (r ≠ Ok tt → files w' = files w) ∧
    (∀ p, Str "out/a.txt" = Str p →
       ¬ Forall (λ d, files w !! d = Some Dir) (ancestors (cwd E) p) →
       r ≠ Ok tt) ∧
    (r = Ok tt →
       ∃ p data c m, Str "out/a.txt" = Str p ∧
         ZipFile_read z (Str "a.txt") = inr data ∧
         epoch_of E (Str "2020-01-01T00:00:00") Sample.iso = inr c ∧
         epoch_of E (Str "2020-06-01T00:00:00") Sample.iso = inr m ∧
         files w' = <[resolve (cwd E) p := File data c m]> (files w)) ∧
    (∀ p data c m, Str "out/a.txt" = Str p →
       epoch_of E (Str "2020-01-01T00:00:00") Sample.iso = inr c →
       epoch_of E (Str "2020-06-01T00:00:00") Sample.iso = inr m →
       ZipFile_read z (Str "a.txt") = inr data →
       writable p →
       Forall (λ d, files w !! d = Some Dir) (ancestors (cwd E) p) →
       files w !! resolve (cwd E) p ≠ Some Dir →
       r = Ok tt).
Proof.
  intros z d E self row w r w'. split; [vm_compute; reflexivity|].
  apply (file_tuple E self z Sample.iso (Str "a.txt") (Str "out/a.txt")
           (Str "2020-01-01T00:00:00") (Str "2020-06-01T00:00:00") w w' r);
    vm_compute; reflexivity.
Defined.

(** C2 as stated fails: nothing makes the missing directories of a file
    destination.  With [/work/new] absent the write to [new/sub/a.txt]
    raises and the disk is unchanged. *)
Lemma file_tuple_makes_no_ancestors :
  let z := Sample.archive [("a.txt", Stored Sample.hello)] in
  let d := Sample.frame Sample.header
             [["a.txt"; "new/sub/a.txt"; "2020-01-01T00:00:00"; "2020-06-01T00:00:00"]] in
  let run := extract (Sample.env z d) (Sample.session z d) Sample.iso Sample.bare in
  endswith "new/sub/a.txt" "/" = false ∧
  run.1 = Raise FileNotFoundError "new/sub/a.txt" ∧
  files run.2 = files Sample.bare ∧
  files run.2 !! ["work"; "new"] = None ∧
  files run.2 !! ["work"; "new"; "sub"] = None ∧
  files run.2 !! ["work"; "new"; "sub"; "a.txt"] = None.
Proof. split_and!; reflexivity. Qed.

(** ** The [a.txt] scenario *)

Lemma scenario_paths (cwd : fpath) :
  writable "out/a.txt" ∧
  ancestors cwd "out/a.txt" = [cwd; cwd ++ ["out"]] ∧
  resolve cwd "out/a.txt" = cwd ++ ["out"; "a.txt"].
Proof.
  split_and!.
  - by repeat split; [..|intros [|]].
  - reflexivity.
  - change (resolve cwd "out/a.txt") with ((cwd ++ ["out"]) ++ ["a.txt"]).
    by rewrite <- app_assoc.
Qed.

(** C6, as the code has it: for the manifest made of the tuple
    [(a.txt, out/a.txt, 2020-01-01T00:00:00, 2020-06-01T00:00:00)], the
    format [%Y-%m-%dT%H:%M:%S] and an open archive whose entry [a.txt] is
    [b"hello"], [extract] returns normally and leaves [out/a.txt] as a
    regular file with content [b"hello"], access time the epoch of the
    creation date and modification time the epoch of the modified date,
    provided the directory [out] exists beforehand and [out/a.txt] is not
    a directory; the rest of the disk is unchanged. *)
Theorem scenario_a_txt
    (E : Env) (self : ExtractZip) (z : ZipFile) (w : World) (c m : Z) :
  zip_file self = Some z →
  is_Some (fp z) →
  NameToInfo z !! "a.txt" = Some (Stored (list_byte_of_string "hello")) →
  manifest_tuples self w =
    (Ok [[Str "a.txt"; Str "out/a.txt"; Str "2020-01-01T00:00:00";
          Str "2020-06-01T00:00:00"]], w) →
  epoch_of E (Str "2020-01-01T00:00:00") "%Y-%m-%dT%H:%M:%S" = inr c →
  epoch_of E (Str "2020-06-01T00:00:00") "%Y-%m-%dT%H:%M:%S" = inr m →
  files w !! cwd E = Some Dir →
  files w !! (cwd E ++ ["out"]) = Some Dir →
  files w !! (cwd E ++ ["out"; "a.txt"]) ≠ Some Dir →
  ∃ w', extract E self "%Y-%m-%dT%H:%M:%S" w = (Ok tt, w') ∧
    files w' = <[cwd E ++ ["out"; "a.txt"] :=
                   File (list_byte_of_string "hello") c m]> (files w).
Proof.
  intros Hz [f Hfp] Hentry Hman Hc Hm Hcwd Hout Hnd.
  rewrite (extract_unfold _ _ _ _ _ Hman), for_each_cons.
  destruct (loop_body E self "%Y-%m-%dT%H:%M:%S" _ w) as [r w'] eqn:Hb.
  apply loop_body_run in Hb as [_ Hrun].
  rewrite (row_fs_file E self z _ (Str "a.txt") (Str "out/a.txt") _ _ _ Hz eq_refl),
    Hc, Hm in Hrun.
  unfold ZipFile_read in Hrun. rewrite Hfp, Hentry in Hrun.
  unfold Ok, do_action in Hrun. cbv beta iota in Hrun.
  destruct (scenario_paths (cwd E)) as (Hwr & Hanc & Hres).
  assert (Hwrite : write_then_utime (cwd E) "out/a.txt"
                     (list_byte_of_string "hello") c m (files w)
                   = inr (<[cwd E ++ ["out"; "a.txt"] :=
                              File (list_byte_of_string "hello") c m]> (files w))).
  { apply write_then_utime_inr. rewrite Hanc, Hres.
    split_and!; [done| |done..]. by repeat constructor. }
  rewrite Hwrite in Hrun. injection Hrun as <- Hfiles. by exists w'.
Qed.

(** The scenario in the reference environment, with [/work/out] in
    place: the two epochs are those of the two dates. *)
Lemma scenario_a_txt_witness :
  let z := Sample.archive [("a.txt", Stored Sample.hello)] in
  let d := Sample.frame Sample.header
             [["a.txt"; "out/a.txt"; "2020-01-01T00:00:00"; "2020-06-01T00:00:00"]] in
  let E := Sample.env z d in
  ∃ w', extract E (Sample.session z d) "%Y-%m-%dT%H:%M:%S" Sample.with_out
          = (Ok tt, w') ∧
    files w' = <[ ["work"; "out"; "a.txt"] :=
                   File (list_byte_of_string "hello") 1577836800 1590969600]>
                 (files Sample.with_out).
Proof.
  intros z d E.
  apply (scenario_a_txt E (Sample.session z d) z Sample.with_out
           1577836800 1590969600).
  - vm_compute; reflexivity.
  - by eexists.
  - vm_compute; reflexivity.
  - vm_compute; reflexivity.
  - vm_compute; reflexivity.
  - vm_compute; reflexivity.
  - vm_compute; reflexivity.
  - vm_compute; reflexivity.
  - by vm_compute.
Defined.

(** C6 as stated fails: when the directory [out] does not exist yet,
    [extract] raises and there is no [out/a.txt] afterwards. *)
Lemma scenario_without_out_directory :
  let z := Sample.archive [("a.txt", Stored Sample.hello)] in
  let d := Sample.frame Sample.header
             [["a.txt"; "out/a.txt"; "2020-01-01T00:00:00"; "2020-06-01T00:00:00"]] in
  let run := extract (Sample.env z d) (Sample.session z d)
               "%Y-%m-%dT%H:%M:%S" Sample.bare in
  ZipFile_read z (Str "a.txt") = Ok (list_byte_of_string "hello") ∧
  run.1 = Raise FileNotFoundError "out/a.txt" ∧
  files run.2 !! ["work"; "out"; "a.txt"] = None ∧
  files run.2 = files Sample.bare.
Proof. split_and!; reflexivity. Qed.

(** ** Running extract again *)

Lemma apply_op_mk (ds : list fpath) (fs fs' : fsys) :
  apply_op (OpMk ds) fs = Some fs' ↔
    Forall (λ d, is_file fs d = false) ds ∧ fs' = mkdir_all ds fs.
Proof.
  simpl. destruct (forallb _ ds) eqn:Hall.
  - assert (Hds : Forall (λ d, is_file fs d = false) ds).
    { apply Forall_forall. intros d Hd%list_elem_of_In.
      eapply forallb_forall in Hall; [|done]. by destruct (is_file fs d). }
    split; [by intros [= <-] | by intros [_ ->]].
  - split; [done|]. intros [H _]. exfalso.
    assert (Hb : forallb (λ d, negb (is_file fs d)) ds = true);
      [|by rewrite Hb in Hall].
    apply forallb_forall. intros d Hd%list_elem_of_In.
    rewrite Forall_forall in H. by rewrite (H d Hd).
Qed.

Lemma apply_op_wr (ds : list fpath) (t : fpath) (data : bytes) (a m : Z)
    (fs fs' : fsys) :
  apply_op (OpWr ds t data a m) fs = Some fs' ↔
    Forall (λ d, fs !! d = Some Dir) ds ∧ fs !! t ≠ Some Dir ∧
    fs' = <[t := File data a m]> fs.
Proof.
  simpl. destruct (forallb (is_dir fs) ds) eqn:Hall; simpl.
  - assert (Hds : Forall (λ d, fs !! d = Some Dir) ds).
    { apply Forall_forall. intros d Hd%list_elem_of_In.
      apply is_dir_true. by eapply forallb_forall in Hall. }
    destruct (is_dir fs t) eqn:Ht; simpl.
    + apply is_dir_true in Ht. split; [done | by intros (_ & ? & _)].
    + split; [intros [= <-] | by intros (_ & _ & ->)].
      split_and!; [done| |done]. intros H%is_dir_true. congruence.
  - split; [done|]. intros (H & _). exfalso.
    assert (Hb : forallb (is_dir fs) ds = true); [|by rewrite Hb in Hall].
    apply forallb_forall. intros d Hd%list_elem_of_In.
    rewrite Forall_forall in H. apply is_dir_true. by apply H.
Qed.

(** An action completes exactly when its operation applies, and then
    the disk is the operation's. *)
Lemma do_action_op (E : Env) (act : action) (fs fs' : fsys) :
  do_action E act fs = (Ok tt, fs') ↔
    ∃ o, action_op (cwd E) act = Some o ∧ apply_op o fs = Some fs'.
Proof.
  destruct act as [[p| |n|b]|[p| |n|b] data a m]; simpl;
    try (split; [done | by intros (? & ? & _)]);
    try (destruct (open_number E _);
         (split; [done | by intros (? & ? & _)])).
  - rewrite fs_makedirs_ok. destruct (decide (p = EmptyString)).
    + split; [by intros (? & _) | by intros (? & ? & _)].
    + split.
      * intros (_ & H1 & H2). eexists. split; [done|]. by apply apply_op_mk.
      * intros (o & [= <-] & H%apply_op_mk). by destruct H.
  - destruct (write_then_utime (cwd E) p data a m fs) as [e|fs1] eqn:Hwr.
    + split; [done|]. intros (o & Ho & Happ).
      destruct (decide (writable p)); [|done]. injection Ho as <-.
      apply apply_op_wr in Happ as (H1 & H2 & H3).
      pose proof (proj2 (write_then_utime_inr (cwd E) p data a m fs _)
                    (conj w (conj H1 (conj H2 eq_refl)))) as Hx.
      by rewrite Hwr in Hx.
    + apply write_then_utime_inr in Hwr as (Hw & H1 & H2 & ->).
      rewrite decide_True by done. split.
      * intros [= <-]. eexists. split; [done|]. by apply apply_op_wr.
      * intros (o & [= <-] & H%apply_op_wr). by destruct H as (_ & _ & ->).
Qed.

(** An action that raises keeps what exists, adds directories only, and
    raises the same way on the disk it left, leaving it as it is. *)
Lemma do_action_failed (E : Env) (act : action) (fs fs' : fsys) (e : exn) :
  do_action E act fs = (inl e, fs') →
  (∀ q x, fs !! q = Some x → fs' !! q = Some x) ∧
  (∀ q x, fs' !! q = Some x → fs !! q = Some x ∨ x = Dir) ∧
  do_action E act fs' = (inl e, fs').
Proof.
  destruct act as [[p| |n|b]|[p| |n|b] data a m]; simpl;
    try (intros [= <- <-]; (split_and!; [done| |done]); intros; by left);
    try (destruct (open_number E _); intros [= <- <-];
         (split_and!; [done| |done]); intros; by left).
  - intros (Hk & Hn & Hagain)%fs_makedirs_failed. split_and!; [done| |done].
    intros q x [H|(_ & -> & _)]%Hn; [by left | by right].
  - destruct (write_then_utime (cwd E) p data a m fs) as [e'|fs1] eqn:Hwr;
      [|done].
    intros [= <- <-]. rewrite Hwr. split_and!; [done| |done]. intros; by left.
Qed.

(** Successful operations keep every node's kind. *)
Lemma apply_op_kinds (o : fsop) (fs fs' : fsys) (q : fpath) :
  apply_op o fs = Some fs' →
  (is_dir fs q = true → is_dir fs' q = true) ∧
  (is_file fs q = true → is_file fs' q = true).
Proof.
  destruct o as [ds|ds t data a m].
  - intros (_ & ->)%apply_op_mk. unfold is_dir, is_file.
    rewrite mkdir_all_lookup. by destruct (fs !! q) as [[|]|].
  - intros (_ & Ht & ->)%apply_op_wr. unfold is_dir, is_file.
    destruct (decide (q = t)) as [->|Hne].
    + rewrite lookup_insert_eq. by destruct (fs !! t) as [[|]|].
    + by rewrite lookup_insert_ne.
Qed.

(** They change an existing node only where they write. *)
Lemma apply_op_untouched (o : fsop) (fs fs' : fsys) (q : fpath) :
  apply_op o fs = Some fs' →
  q ∉ op_target o → is_Some (fs !! q) → fs' !! q = fs !! q.
Proof.
  destruct o as [ds|ds t data a m].
  - intros (_ & ->)%apply_op_mk _ [x Hx]. by rewrite mkdir_all_lookup, Hx.
  - intros (_ & _ & ->)%apply_op_wr Hq _. simpl in Hq.
    rewrite lookup_insert_ne; [done|]. intros ->. apply Hq. left.
Qed.



Section Rerun.

Context (E : Env) (self : ExtractZip) (date_format : string).

Lemma row_fs_op (row : list cell) (fs fs' : fsys) :
  row_fs E self date_format row fs = (Ok tt, fs') ↔
    ∃ o, row_op E self date_format row = Some o ∧ apply_op o fs = Some fs'.
Proof.
  unfold row_fs, row_op.
  destruct (row_action E self date_format row) as [e|act].
  - split; [done | by intros (? & ? & _)].
  - apply do_action_op.
Qed.

Lemma row_fs_failed (row : list cell) (fs fs' : fsys) (e : exn) :
  row_fs E self date_format row fs = (inl e, fs') →
  (∀ q x, fs !! q = Some x → fs' !! q = Some x) ∧
  (∀ q x, fs' !! q = Some x → fs !! q = Some x ∨ x = Dir) ∧
  row_fs E self date_format row fs' = (inl e, fs').
Proof.
  unfold row_fs.
  destruct (row_action E self date_format row) as [e'|act].
  - intros [= <- <-]. split_and!; [done| |done]. intros; by left.
  - apply do_action_failed.
Qed.

Lemma run_fs_kinds (tuples : list (list cell)) (fs fs' : fsys)
    (r : result unit) (q : fpath) :
  run_fs E self date_format tuples fs = (r, fs') →
  (is_dir fs q = true → is_dir fs' q = true) ∧
  (is_file fs q = true → is_file fs' q = true).
Proof.
  revert fs. induction tuples as [|row rest IH]; intros fs; simpl.
  - by intros [= _ <-].
  - destruct (row_fs E self date_format row fs) as [[e|[]] fs1] eqn:Hrow.
    + intros [= _ <-]. apply row_fs_failed in Hrow as (Hk & _ & _).
      unfold is_dir, is_file.
      destruct (fs !! q) as [x|] eqn:Hq; [|done]. by rewrite (Hk q x Hq).
    + intros Hrest. apply row_fs_op in Hrow as (o & _ & Ho).
      destruct (apply_op_kinds o fs fs1 q Ho) as [Hd Hf].
      destruct (IH _ Hrest) as [Hd' Hf']. split; eauto.
Qed.

Lemma run_fs_untouched (tuples : list (list cell)) (fs fs' : fsys)
    (r : result unit) (q : fpath) :
  run_fs E self date_format tuples fs = (r, fs') →
  q ∉ written E self date_format tuples fs →
  is_Some (fs !! q) → fs' !! q = fs !! q.
Proof.
  revert fs. induction tuples as [|row rest IH]; intros fs; simpl.
  - by intros [= _ <-].
  - destruct (row_fs E self date_format row fs) as [[e|[]] fs1] eqn:Hrow.
    + intros [= _ <-] _ [x Hx]. apply row_fs_failed in Hrow as (Hk & _ & _).
      by rewrite Hx, (Hk q x Hx).
    + intros Hrest Hq Hsome. apply row_fs_op in Hrow as (o & Hop & Ho).
      rewrite Hop in Hq. apply not_elem_of_app in Hq as [Hq1 Hq2].
      pose proof (apply_op_untouched o fs fs1 q Ho Hq1 Hsome) as Hsame.
      rewrite <- Hsame. apply IH; [done..|]. by rewrite Hsame.
Qed.






End Rerun.



(** ** One operation per tuple *)







(** * Further properties of the class *)

(** ** The tuples of the loop *)

Lemma locate_length (cols names : list string) (ixs : list nat) :
  locate cols names = inr ixs → length ixs = length names.
Proof.
  revert ixs. induction names as [|n names IH]; intros ixs; simpl.
  - by intros [= <-].
  - destruct (index_of n cols); [|done].
    destruct (locate cols names) as [e|js]; [done|].
    intros [= <-]. simpl. by rewrite (IH js).
Qed.

Lemma locate_present (cols names : list string) :
  Forall (λ n, n ∈ cols) names → ∃ ixs, locate cols names = inr ixs.
Proof.
  induction 1 as [|n names Hn _ IH]; simpl; [by eexists|].
  destruct (index_of n cols) as [i|] eqn:Hi.
  - destruct IH as [ixs ->]. by eexists.
  - apply index_of_None in Hi. done.
Qed.

Lemma index_of_Some (name : string) (cols : list string) (k : nat) :
  index_of name cols = Some k → cols !! k = Some name.
Proof.
  revert k. induction cols as [|c cols IH]; intros k; simpl; [done|].
  destruct (decide (c = name)) as [->|Hne].
  - by intros [= <-].
  - destruct (index_of name cols) as [j|]; [|done].
    intros [= <-]. simpl. by apply IH.
Qed.

(** Every tuple the loop iterates over has exactly the four cells the
    loop unpacks, and there is one tuple for each row of the frame, so
    the unpacking in the [for] statement cannot fail.  The four cells are
    those of the row under the columns labelled with the four configured
    names, in the order input, output, creation date, modified date,
    wherever those columns stand in the manifest. *)
Theorem manifest_tuples_shape
    (self : ExtractZip) (d : DataFrame) (i o c m : string)
    (tuples : list (list cell)) (w : World) :
  df self = Some d →
  input_col self = Some i → output_col self = Some o →
  creation_date_col self = Some c → modified_date_col self = Some m →
  manifest_tuples self w = (Ok tuples, w) →
  length tuples = length (rows d) ∧
  Forall (λ row, ∃ zipped out cd md, row = [zipped; out; cd; md]) tuples ∧
  ∃ ki ko kc km,
    columns d !! ki = Some i ∧ columns d !! ko = Some o ∧
    columns d !! kc = Some c ∧ columns d !! km = Some m ∧
    tuples =
      map (λ r, [nth ki r NaN; nth ko r NaN; nth kc r NaN; nth km r NaN])
          (rows d).
Proof.
  intros Hd Hi Ho Hc Hm Hman.
  split; [by eapply manifest_tuples_length|].
  revert Hman. unfold manifest_tuples. unfold_M. rewrite Hd, Hi, Ho, Hc, Hm.
  simpl. unfold getitem, locate.
  destruct (index_of i (columns d)) as [ki|] eqn:Hki; [|done].
  destruct (index_of o (columns d)) as [ko|] eqn:Hko; [|done].
  destruct (index_of c (columns d)) as [kc|] eqn:Hkc; [|done].
  destruct (index_of m (columns d)) as [km|] eqn:Hkm; [|done].
  returned. unfold itertuples. simpl. split.
  - apply Forall_forall. intros row (r0 & -> & _)%list_elem_of_fmap.
    by eexists _, _, _, _.
  - exists ki, ko, kc, km. split_and!; try by apply index_of_Some.
    done.
Qed.

(** A manifest with a fifth column and the four required ones in another
    order. *)
Lemma manifest_tuples_shape_witness :
  let z := Sample.archive [("a.txt", Stored Sample.hello)] in
  let d := Sample.frame ["note"; "modified_date"; "output"; "creation_date"; "input"]
             [["x"; "2020-06-01T00:00:00"; "out/a.txt"; "2020-01-01T00:00:00"; "a.txt"]] in
  let tuples := [map Str ["a.txt"; "out/a.txt"; "2020-01-01T00:00:00";
                          "2020-06-01T00:00:00"]] in
  length tuples = length (rows d) ∧
  Forall (λ row, ∃ zipped out cd md, row = [zipped; out; cd; md]) tuples ∧
  ∃ ki ko kc km,
    columns d !! ki = Some "input" ∧ columns d !! ko = Some "output" ∧
    columns d !! kc = Some "creation_date" ∧
    columns d !! km = Some "modified_date" ∧
    tuples =
      map (λ r, [nth ki r NaN; nth ko r NaN; nth kc r NaN; nth km r NaN])
          (rows d).
Proof.
  intros z d tuples.
  apply (manifest_tuples_shape (Sample.session z d) d "input" "output"
           "creation_date" "modified_date" tuples Sample.bare);
    vm_compute; reflexivity.
Defined.

(** A manifest that has the four configured columns and no rows: [extract]
    returns normally and the world is untouched, whatever the state of the
    archive handle. *)
Theorem extract_empty_manifest
    (E : Env) (self : ExtractZip) (d : DataFrame) (i o c m : string)
    (date_format : string) (w : World) :
  df self = Some d →
  input_col self = Some i → output_col self = Some o →
  creation_date_col self = Some c → modified_date_col self = Some m →
  Forall (λ n, n ∈ columns d) [i; o; c; m] →
  rows d = [] →
  extract E self date_format w = (Ok tt, w).
Proof.
  intros Hd Hi Ho Hc Hm Hcols Hrows.
  destruct (locate_present _ _ Hcols) as [ixs Hloc].
  unfold extract, manifest_tuples, getitem. unfold_M.
  rewrite Hd, Hi, Ho, Hc, Hm. cbn -[locate]. rewrite Hloc, Hrows. done.
Qed.

Lemma extract_empty_manifest_witness :
  let z := Sample.archive [] in
  let d := Sample.frame Sample.header [] in
  extract (Sample.env z d) (Sample.session z d) Sample.iso Sample.bare
    = (Ok tt, Sample.bare).
Proof.
  intros z d.
  apply (extract_empty_manifest (Sample.env z d) (Sample.session z d) d
           "input" "output" "creation_date" "modified_date" Sample.iso
           Sample.bare); try (vm_compute; reflexivity).
  repeat constructor.
Defined.

(** ** Errors stop the run *)

(** Whatever a tuple raises (a date, a missing or corrupt entry, a failed
    write), [extract] raises it at once: the tuples after it play no part
    in the outcome or in the final world. *)
Theorem first_error_stops_run
    (E : Env) (self : ExtractZip) (date_format : string)
    (pre post : list (list cell)) (row : list cell)
    (w w1 w2 : World) (e : exn) :
  manifest_tuples self w = (Ok (pre ++ row :: post), w) →
  for_each pre (loop_body E self date_format) w = (Ok tt, w1) →
  loop_body E self date_format row w1 = (inl e, w2) →
  extract E self date_format w = (inl e, w2).
Proof.
  intros Hman Hpre Hrow.
  by rewrite (extract_unfold _ _ _ _ _ Hman), for_each_app, Hpre,
    for_each_cons, Hrow.
Qed.

(** The second of three tuples names an entry the archive lacks. *)
Lemma first_error_stops_run_witness :
  let z := Sample.archive [("a.txt", Stored Sample.hello)] in
  let t1 := ["a.txt"; "a.txt"; "2020-01-01T00:00:00"; "2020-06-01T00:00:00"] in
  let t2 := ["gone.txt"; "b.txt"; "2020-01-01T00:00:00"; "2020-06-01T00:00:00"] in
  let t3 := ["a.txt"; "c.txt"; "2020-01-01T00:00:00"; "2020-06-01T00:00:00"] in
  let d := Sample.frame Sample.header [t1; t2; t3] in
  let E := Sample.env z d in
  let self := Sample.session z d in
  let w1 := (loop_body E self Sample.iso (map Str t1) Sample.bare).2 in
  let w2 := (loop_body E self Sample.iso (map Str t2) w1).2 in
  extract E self Sample.iso Sample.bare = (Raise KeyError "gone.txt", w2) ∧
  files w2 !! ["work"; "c.txt"] = None.
Proof.
  intros z t1 t2 t3 d E self w1 w2. split; [|vm_compute; reflexivity].
  apply (first_error_stops_run E self Sample.iso [map Str t1] [map Str t3]
           (map Str t2) Sample.bare w1 w2 (Exn KeyError "gone.txt"));
    vm_compute; reflexivity.
Defined.

(** A tuple whose entry is not in the (open) archive: once its dates have
    parsed, the tuple raises [KeyError] for the entry name right after the
    read is attempted; no call reaches the disk. *)
Theorem missing_entry_raises_key_error
    (E : Env) (self : ExtractZip) (z : ZipFile) (date_format : string)
    (name : string) (out cd md : cell) (c m : Z) (w : World) :
  zip_file self = Some z →
  is_Some (fp z) →
  NameToInfo z !! name = None →
  epoch_of E cd date_format = inr c →
  epoch_of E md date_format = inr m →
  loop_body E self date_format [Str name; out; cd; md] w =
    (Raise KeyError name,
     log (ZipRead (Str name)) (log (Print (Str name) out c m) w)).
Proof.
  intros Hz [f Hfp] Hname Hc Hm.
  rewrite loop_body_eq, Hc, Hm, Hz. unfold ZipFile_read.
  by rewrite Hfp, Hname.
Qed.

Lemma missing_entry_raises_key_error_witness :
  let z := Sample.archive [("a.txt", Stored Sample.hello)] in
  let d := Sample.frame Sample.header [] in
  let E := Sample.env z d in
  loop_body E (Sample.session z d) Sample.iso
    [Str "gone.txt"; Str "out/"; Str "2020-01-01T00:00:00";
     Str "2020-06-01T00:00:00"] Sample.bare =
    (Raise KeyError "gone.txt",
     log (ZipRead (Str "gone.txt"))
       (log (Print (Str "gone.txt") (Str "out/") 1577836800 1590969600)
          Sample.bare)).
Proof.
  intros z d E.
  apply (missing_entry_raises_key_error E (Sample.session z d) z Sample.iso
           "gone.txt" (Str "out/") (Str "2020-01-01T00:00:00")
           (Str "2020-06-01T00:00:00") 1577836800 1590969600 Sample.bare).
  - vm_compute; reflexivity.
  - by eexists.
  - vm_compute; reflexivity.
  - vm_compute; reflexivity.
  - vm_compute; reflexivity.
Defined.

(** ** What extract leaves alone *)

Lemma extract_run (E : Env) (self : ExtractZip) (date_format : string)
    (w w' : World) (r : result unit) :
  extract E self date_format w = (r, w') →
  w' = w ∨
  ∃ tuples, manifest_tuples self w = (Ok tuples, w) ∧
    run_fs E self date_format tuples (files w) = (r, files w').
Proof.
  destruct (manifest_tuples_world self w) as [[e|tuples] Hman].
  - unfold extract, mbind, M_bind. rewrite (Hman w). intros [= _ <-]. by left.
  - rewrite (extract_unfold _ _ _ _ _ (Hman w)). intros H.
    apply for_each_run in H as [_ H]. right. by exists tuples.
Qed.

(** [extract] removes nothing and changes no node's kind: a directory is
    still a directory afterwards and a regular file still a regular
    file, whether the run returned or raised. *)
Theorem extract_keeps_nodes
    (E : Env) (self : ExtractZip) (date_format : string)
    (w w' : World) (r : result unit) (q : fpath) :
  extract E self date_format w = (r, w') →
  (files w !! q = Some Dir → files w' !! q = Some Dir) ∧
  (is_file (files w) q = true → is_file (files w') q = true).
Proof.
  intros [->|(tuples & _ & Hrun)]%extract_run; [done|].
  destruct (run_fs_kinds E self date_format tuples _ _ r q Hrun) as [Hd Hf].
  split; [|done]. intros H. by apply is_dir_true, Hd, is_dir_true.
Qed.

Lemma extract_keeps_nodes_witness :
  let z := Sample.archive [("out/", Stored []); ("a.txt", Stored Sample.hello)] in
  let d := Sample.frame Sample.header
             [["out/"; "out/"; "2020-01-01T00:00:00"; "2020-01-01T00:00:00"];
              ["a.txt"; "out/a.txt"; "2020-01-01T00:00:00"; "2020-06-01T00:00:00"]] in
  let w' := (extract (Sample.env z d) (Sample.session z d) Sample.iso
               Sample.bare).2 in
  (files Sample.bare !! ["work"] = Some Dir → files w' !! ["work"] = Some Dir) ∧
  (is_file (files Sample.bare) ["work"] = true →
   is_file (files w') ["work"] = true).
Proof.
  intros z d w'.
  apply (extract_keeps_nodes (Sample.env z d) (Sample.session z d) Sample.iso
           Sample.bare w' (Ok tt) ["work"]).
  vm_compute; reflexivity.
Defined.

Lemma row_op_target (E : Env) (self : ExtractZip) (date_format : string)
    (row : list cell) (o : fsop) (q : fpath) :
  row_op E self date_format row = Some o →
  q ∈ op_target o →
  q ∈ file_destinations (cwd E) [row].
Proof.
  unfold row_op, row_action.
  destruct row as [|zipped [|out [|cd [|md [|]]]]]; try done.
  destruct (epoch_of E cd date_format); [done|].
  destruct (epoch_of E md date_format); [done|].
  destruct (zip_file self); [|done].
  destruct (ZipFile_read _ _); [done|].
  destruct (endswith (str out) "/") eqn:Hend; simpl.
  - destruct out as [p| | |]; try done.
    destruct (decide (p = EmptyString)); [done|].
    intros [= <-]. by intros ?%elem_of_nil.
  - destruct out as [p| | |]; try done. destruct (decide (writable p)); [|done].
    intros [= <-]. simpl in *. rewrite Hend. done.
Qed.

Lemma file_destinations_cons (cwd : fpath) (row : list cell)
    (rest : list (list cell)) :
  file_destinations cwd (row :: rest) =
    file_destinations cwd [row] ++ file_destinations cwd rest.
Proof. apply (omap_app _ [row] rest). Qed.

Lemma written_destinations (E : Env) (self : ExtractZip) (date_format : string)
    (tuples : list (list cell)) (fs : fsys) (q : fpath) :
  q ∈ written E self date_format tuples fs →
  q ∈ file_destinations (cwd E) tuples.
Proof.
  revert fs. induction tuples as [|row rest IH]; intros fs; cbn [written];
    [by intros ?%elem_of_nil|].
  destruct (row_fs E self date_format row fs) as [[e|[]] fs1];
    [by intros ?%elem_of_nil|].
  rewrite file_destinations_cons.
  intros [Hq|Hq]%elem_of_app; apply elem_of_app.
  - left. destruct (row_op E self date_format row) as [o|] eqn:Hop;
      [|by apply elem_of_nil in Hq].
    by eapply row_op_target.
  - right. by eapply IH.
Qed.

(** [extract] changes an existing node only where a file tuple of the
    manifest points: every other file keeps its bytes and its times, and
    this holds for a run that raises as well. *)
Theorem extract_changes_destinations_only
    (E : Env) (self : ExtractZip) (date_format : string)
    (tuples : list (list cell)) (w w' : World) (r : result unit)
    (q : fpath) (x : node) :
  manifest_tuples self w = (Ok tuples, w) →
  extract E self date_format w = (r, w') →
  files w !! q = Some x →
  q ∉ file_destinations (cwd E) tuples →
  files w' !! q = Some x.
Proof.
  intros Hman Hrun Hq Hdest.
  rewrite (extract_unfold _ _ _ _ _ Hman) in Hrun.
  apply for_each_run in Hrun as [_ Hrun].
  rewrite <- Hq. eapply run_fs_untouched; [exact Hrun| |by rewrite Hq].
  intros Hin. by apply Hdest, (written_destinations _ self date_format _ (files w)).
Qed.

(** A file beside the destination keeps its content and times. *)
Lemma extract_changes_destinations_only_witness :
  let z := Sample.archive [("a.txt", Stored Sample.hello)] in
  let d := Sample.frame Sample.header
             [["a.txt"; "a.txt"; "2020-01-01T00:00:00"; "2020-06-01T00:00:00"]] in
  let E := Sample.env z d in
  let w := mkWorld (<[ ["work"; "keep.txt"] := File [] 5 7 ]> (files Sample.bare))
             1700000000 [] in
  let w' := (extract E (Sample.session z d) Sample.iso w).2 in
  files w' !! ["work"; "keep.txt"] = Some (File [] 5 7).
Proof.
  intros z d E w w'.
  apply (extract_changes_destinations_only E (Sample.session z d) Sample.iso
           (rows d) w w' (Ok tt) ["work"; "keep.txt"] (File [] 5 7)).
  - vm_compute; reflexivity.
  - vm_compute; reflexivity.
  - vm_compute; reflexivity.
  - vm_compute. intros H. apply list_elem_of_In in H. simpl in H.
    destruct H as [H|[]]. discriminate H.
Defined.

(** ** The printed lines *)

Lemma printed_log (e : event) (w : World) :
  printed (calls (log e w)) =
    printed (calls w) ++ (if is_print e then [e] else []).
Proof.
  unfold printed, log. simpl. rewrite filter_app. f_equal.
  destruct (is_print e) eqn:He.
  - rewrite filter_cons_True; [done | simpl; by rewrite He].
  - rewrite filter_cons_False; [done | simpl; rewrite He; by intros []].
Qed.

Lemma loop_body_prints (E : Env) (self : ExtractZip) (date_format : string)
    (row : list cell) (w w' : World) :
  loop_body E self date_format row w = (Ok tt, w') →
  ∃ e, row_print E date_format row = Some e ∧
    printed (calls w') = printed (calls w) ++ [e].
Proof.
  destruct row as [|zipped [|out [|cd [|md [|]]]]]; try done.
  rewrite loop_body_eq. unfold row_print.
  destruct (epoch_of E cd date_format) as [e|c]; [done|].
  destruct (epoch_of E md date_format) as [e|m]; [done|].
  destruct (zip_file self) as [z|]; [|done].
  destruct (ZipFile_read z zipped) as [e|data]; [done|]. cbv zeta.
  destruct (endswith (str out) "/"); destruct out as [p| |n|b]; try done;
    try (unfold os_makedirs, open_wb_write, os_utime; unfold_M; simpl;
         try destruct (open_number E _); done).
  - rewrite os_makedirs_eq. returned.
    eexists. split; [done|]. unfold printed.
    rewrite !filter_app. simpl. by rewrite !app_nil_r.
  - rewrite open_wb_write_eq.
    destruct (fs_open_write _ _ _ _ _); [done|]. rewrite os_utime_eq.
    destruct (fs_utime _ _ _ _ _); [done|]. returned.
    eexists. split; [done|]. unfold printed.
    rewrite !filter_app. simpl. by rewrite !app_nil_r.
Qed.

(** A run that returns normally has printed one line for each tuple, in
    manifest order: the entry name, the destination and the two epochs
    parsed from the tuple's dates. *)
Theorem one_line_per_row
    (E : Env) (self : ExtractZip) (date_format : string)
    (tuples : list (list cell)) (w w' : World) :
  manifest_tuples self w = (Ok tuples, w) →
  extract E self date_format w = (Ok tt, w') →
  ∃ lines,
    printed (calls w') = printed (calls w) ++ lines ∧
    Some <$> lines = row_print E date_format <$> tuples.
Proof.
  intros Hman. rewrite (extract_unfold _ _ _ _ _ Hman). clear Hman.
  revert w. induction tuples as [|row rest IH]; intros w.
  - returned. exists []. by rewrite app_nil_r.
  - rewrite for_each_cons.
    destruct (loop_body E self date_format row w) as [[e|[]] w1] eqn:Hb; [done|].
    intros Hrest.
    destruct (loop_body_prints _ _ _ _ _ _ Hb) as (e & He & Hcalls).
    destruct (IH _ Hrest) as (lines & Hlines & Hmap).
    exists (e :: lines). split.
    + by rewrite Hlines, Hcalls, <- app_assoc.
    + rewrite !fmap_cons. by rewrite He, Hmap.
Qed.

Lemma one_line_per_row_witness :
  let z := Sample.archive [("out/", Stored []); ("a.txt", Stored Sample.hello)] in
  let d := Sample.frame Sample.header
             [["out/"; "out/"; "2020-01-01T00:00:00"; "2020-01-01T00:00:00"];
              ["a.txt"; "out/a.txt"; "2020-01-01T00:00:00"; "2020-06-01T00:00:00"]] in
  let E := Sample.env z d in
  let w' := (extract E (Sample.session z d) Sample.iso Sample.bare).2 in
  ∃ lines,
    printed (calls w') = printed (calls Sample.bare) ++ lines ∧
    Some <$> lines = row_print E Sample.iso <$> rows d.
Proof.
  intros z d E w'.
  apply (one_line_per_row E (Sample.session z d) Sample.iso (rows d)
           Sample.bare w'); vm_compute; reflexivity.
Defined.

(** ** Leaving the session *)

(** [__exit__] on a session as [__init__] built it: the archive handle
    is released and the session marked closed in every case; the value is
    [False], so an exception of the [with] block is never swallowed, unless
    the archive's own close raised, and then that exception is what
    [__exit__] raises. *)
Theorem exit_closes_and_does_not_suppress
    (self self' : ExtractZip) (z : ZipFile) (w w' : World) (r : result bool) :
  zip_file self = Some z →
  _closed self = Some false →
  __exit__ self w = (r, self', w') →
  _closed self' = Some true ∧
  (∃ z', zip_file self' = Some z' ∧ fp z' = None ∧
         NameToInfo z' = NameToInfo z) ∧
  df self' = df self ∧
  files w' = files w ∧
  r = match fp z with
      | Some f =>
          match close_raises f with
          | Some e => inl e
          | None => Ok false
          end
      | None => Ok false
      end.
Proof.
  intros Hz Hopen. unfold __exit__, close. rewrite Hopen, Hz. simpl.
  unfold ZipFile_close. destruct (fp z) as [f|] eqn:Hfp.
  - destruct (close_raises f); returned; split_and!; try done; by eexists.
  - returned. split_and!; try done. by eexists.
Qed.

Lemma exit_closes_and_does_not_suppress_witness :
  let z := Sample.archive [("a.txt", Stored Sample.hello)] in
  let d := Sample.frame Sample.header [] in
  let self := Sample.session z d in
  let out := __exit__ self Sample.bare in
  _closed out.1.2 = Some true ∧
  (∃ z', zip_file out.1.2 = Some z' ∧ fp z' = None ∧
         NameToInfo z' = NameToInfo z) ∧
  df out.1.2 = df self ∧
  files out.2 = files Sample.bare ∧
  out.1.1 = Ok false.
Proof.
  intros z d self out.
  apply (exit_closes_and_does_not_suppress self out.1.2 z Sample.bare out.2
           out.1.1); vm_compute; reflexivity.
Defined.

(** [__del__] never raises, on any object in any state; on an open
    session it still releases the archive and marks the session closed,
    also when the archive's close raised. *)
Theorem del_swallows_and_closes
    (self self' : ExtractZip) (w w' : World) (r : result unit) :
  __del__ self w = (r, self', w') →
  r = Ok tt ∧
  files w' = files w ∧
  (∀ z, zip_file self = Some z → _closed self = Some false →
        _closed self' = Some true ∧
        ∃ z', zip_file self' = Some z' ∧ fp z' = None).
Proof.
  unfold __del__.
  destruct (close self w) as [[r0 s1] w1] eqn:Hclose. returned.
  split; [done|]. revert Hclose. unfold close.
  destruct (_closed self) as [[]|]; simpl.
  - returned. split; [done|]. by intros.
  - destruct (zip_file self) as [z|].
    + destruct (ZipFile_close z) as [rz z'] eqn:Hz. returned.
      split; [done|]. intros ? _ _. split; [done|]. exists z'.
      split; [done|]. by eapply ZipFile_close_fp.
    + returned. split; [done|]. by intros.
  - returned. split; [done|]. by intros.
Qed.

(** An open session whose file object raises on close. *)
Lemma del_swallows_and_closes_witness :
  let failing := mkZipFile ∅ (Some (mkFileObj (Some (Exn OSError "close")))) in
  let self := mkExtractZip (Some failing) (Some (Sample.frame Sample.header []))
                (Some "input") (Some "output") (Some "creation_date")
                (Some "modified_date") (Some false) in
  let out := __del__ self Sample.bare in
  (close self Sample.bare).1.1 = Raise OSError "close" ∧
  out.1.1 = Ok tt ∧
  files out.2 = files Sample.bare ∧
  (∀ z, zip_file self = Some z → _closed self = Some false →
        _closed out.1.2 = Some true ∧
        ∃ z', zip_file out.1.2 = Some z' ∧ fp z' = None).
Proof.
  intros failing self out. split; [vm_compute; reflexivity|].
  apply (del_swallows_and_closes self out.1.2 Sample.bare out.2 out.1.1).
  vm_compute; reflexivity.
Defined.

(** When the archive opens but the manifest cannot be read, [__init__]
    raises the reader's exception and leaves the object holding the open
    archive with no [_closed] flag; [close] and [__del__] then take the
    object for closed and return without releasing the archive. *)
Theorem failed_manifest_keeps_archive_open
    (E : Env) (zp mp i o c m : string) (z : ZipFile) (e : exn) :
  zipfile_ZipFile E zp = inr z →
  pd_read_csv E mp = inl e →
  ∃ self,
    __init__ E new_object zp mp i o c m = (inl e, self) ∧
    zip_file self = Some z ∧
    _closed self = None ∧
    ∀ w, close self w = (Ok tt, self, w) ∧ __del__ self w = (Ok tt, self, w).
Proof.
  intros Hz Hd. exists (set_zip_file z new_object).
  assert (Hinit : __init__ E new_object zp mp i o c m
                  = (inl e, set_zip_file z new_object)).
  { unfold __init__. by rewrite Hz, Hd. }
  split_and!; [done..|]. intros w.
  assert (Hc : close (set_zip_file z new_object) w
               = (Ok tt, set_zip_file z new_object, w)) by done.
  split; [done|]. unfold __del__. by rewrite Hc.
Qed.

Lemma failed_manifest_keeps_archive_open_witness :
  let z := Sample.archive [("a.txt", Stored Sample.hello)] in
  let E := Sample.env z (Sample.frame Sample.header []) in
  is_Some (fp z) ∧
  ∃ self,
    __init__ E new_object "sample-1.zip" "missing.csv" "input" "output"
      "creation_date" "modified_date"
      = (Raise FileNotFoundError "missing.csv", self) ∧
    zip_file self = Some z ∧
    _closed self = None ∧
    ∀ w, close self w = (Ok tt, self, w) ∧ __del__ self w = (Ok tt, self, w).
Proof.
  intros z E. split; [by eexists|].
  apply (failed_manifest_keeps_archive_open E "sample-1.zip" "missing.csv"
           "input" "output" "creation_date" "modified_date" z
           (Exn FileNotFoundError "missing.csv")); vm_compute; reflexivity.
Defined.

(** ** The script *)

(** The script with an archive and a manifest that open: the session is
    closed and the archive released when the script ends, whether
    [extract] returned or raised; the disk is the one [extract] left; and
    the script's outcome is that of [extract], unless the archive's close
    raised, which then takes its place. *)
Theorem main_releases_archive
    (E : Env) (z : ZipFile) (d : DataFrame) (w w' : World)
    (self' : ExtractZip) (r : result unit) :
  zipfile_ZipFile E "sample-1.zip" = inr z →
  pd_read_csv E "example.csv" = inr d →
  main E w = (r, self', w') →
  let self := mkExtractZip (Some z) (Some d) (Some "input") (Some "output")
                (Some "creation_date") (Some "modified_date") (Some false) in
  let run := extract E self "%Y-%m-%dT%H:%M:%S" w in
  _closed self' = Some true ∧
  (∃ z', zip_file self' = Some z' ∧ fp z' = None) ∧
  files w' = files run.2 ∧
  r = match fp z with
      | Some f =>
          match close_raises f with
          | Some e => inl e
          | None => run.1
          end
      | None => run.1
      end.
Proof.
  intros Hz Hd. unfold main, init_default.
  rewrite (init_ok E _ _ "input" "output" "creation_date" "modified_date" z d Hz Hd).
  unfold __enter__. cbv zeta.
  destruct (extract E _ "%Y-%m-%dT%H:%M:%S" w) as [r1 w1].
  unfold __exit__, close. simpl. unfold ZipFile_close.
  destruct (fp z) as [f|] eqn:Hfp.
  - destruct (close_raises f); returned; split_and!; try done; by eexists.
  - returned. split_and!; try done. by exists z.
Qed.

(** The script on the manifest of the scenario, started without the
    directory [out]: [extract] raises, and the archive is released all the
    same. *)
Lemma main_releases_archive_witness :
  let z := Sample.archive [("a.txt", Stored Sample.hello)] in
  let d := Sample.frame Sample.header
             [["a.txt"; "out/a.txt"; "2020-01-01T00:00:00"; "2020-06-01T00:00:00"]] in
  let E := Sample.env z d in
  let out := main E Sample.bare in
  let self := mkExtractZip (Some z) (Some d) (Some "input") (Some "output")
                (Some "creation_date") (Some "modified_date") (Some false) in
  let run := extract E self "%Y-%m-%dT%H:%M:%S" Sample.bare in
  out.1.1 = Raise FileNotFoundError "out/a.txt" ∧
  _closed out.1.2 = Some true ∧
  (∃ z', zip_file out.1.2 = Some z' ∧ fp z' = None) ∧
  files out.2 = files run.2 ∧
  out.1.1 = match fp z with
            | Some f =>
                match close_raises f with
                | Some e => inl e
                | None => run.1
                end
            | None => run.1
            end.
Proof.
  intros z d E out self run. split; [vm_compute; reflexivity|].
  apply (main_releases_archive E z d Sample.bare out.2 out.1.2 out.1.1);
    vm_compute; reflexivity.
Defined.

(** The script when the archive or the manifest does not open: it raises
    the exception of the constructor and the world is untouched: nothing
    is printed, read, written or closed. *)
Theorem main_construction_fails
    (E : Env) (e : exn) (self : ExtractZip) (w : World) :
  init_default E new_object "sample-1.zip" "example.csv" = (inl e, self) →
  main E w = (inl e, self, w).
Proof.
  intros Hinit. unfold main. rewrite Hinit.
  assert (Hdel : __del__ self w = (Ok tt, self, w)).
  { unfold __del__.
    rewrite close_when_closed; [done|].
    by rewrite (init_failed_unflagged _ _ _ _ _ _ _ _ _ Hinit). }
  by rewrite Hdel.
Qed.

Lemma main_construction_fails_witness :
  let E := mkEnv (λ path, Raise BadZipFile path)
             (λ path, Ok (Sample.frame Sample.header []))
             Sample.strptime Sample.mktime ["work"]
             (λ _, Raise OSError bad_descriptor_msg) in
  main E Sample.bare = (Raise BadZipFile "sample-1.zip", new_object, Sample.bare).
Proof.
  intros E.
  apply (main_construction_fails E (Exn BadZipFile "sample-1.zip") new_object
           Sample.bare).
  vm_compute; reflexivity.
Defined.

(** ** Several tuples for one destination *)

Lemma file_tuple_result (E : Env) (self : ExtractZip) (z : ZipFile)
    (date_format : string) (zipped cd md : cell) (p : string) (w w' : World) :
  zip_file self = Some z →
  endswith p "/" = false →
  loop_body E self date_format [zipped; Str p; cd; md] w = (Ok tt, w') →
  ∃ data c m,
    ZipFile_read z zipped = inr data ∧
    epoch_of E cd date_format = inr c ∧
    epoch_of E md date_format = inr m ∧
    files w' = <[resolve (cwd E) p := File data c m]> (files w).
Proof.
  intros Hz Hend Hbody. apply loop_body_run in Hbody as [_ Hrun].
  rewrite (row_fs_file E self z _ zipped (Str p) _ _ _ Hz Hend) in Hrun.
  destruct (epoch_of E cd date_format) as [e|c]; [done|].
  destruct (epoch_of E md date_format) as [e|m]; [done|].
  destruct (ZipFile_read z zipped) as [e|data]; [done|].
  simpl in Hrun.
  destruct (write_then_utime _ _ _ _ _ _) as [e|fs'] eqn:Hwr; [done|].
  injection Hrun as <-.
  apply write_then_utime_inr in Hwr as (_ & _ & _ & ->).
  by exists data, c, m.
Qed.

(** When several file tuples name the same location, the last one wins:
    after a run that returns normally the destination of a file tuple
    which no later file tuple resolves to holds that tuple's entry bytes
    and that tuple's two dates. *)
Theorem last_tuple_wins
    (E : Env) (self : ExtractZip) (z : ZipFile) (date_format : string)
    (pre post : list (list cell)) (zipped cd md : cell) (p : string)
    (w w' : World) :
  zip_file self = Some z →
  manifest_tuples self w = (Ok (pre ++ [zipped; Str p; cd; md] :: post), w) →
  endswith p "/" = false →
  resolve (cwd E) p ∉ file_destinations (cwd E) post →
  extract E self date_format w = (Ok tt, w') →
  ∃ data c m,
    ZipFile_read z zipped = inr data ∧
    epoch_of E cd date_format = inr c ∧
    epoch_of E md date_format = inr m ∧
    files w' !! resolve (cwd E) p = Some (File data c m).
Proof.
  intros Hz Hman Hend Hlast.
  rewrite (extract_unfold _ _ _ _ _ Hman), for_each_app.
  destruct (for_each pre _ w) as [[e|[]] w1]; [done|].
  rewrite for_each_cons.
  destruct (loop_body E self date_format _ w1) as [[e|[]] w2] eqn:Hbody; [done|].
  intros Hpost.
  destruct (file_tuple_result _ _ _ _ _ _ _ _ _ _ Hz Hend Hbody)
    as (data & c & m & Hdata & Hc & Hm & Hfiles).
  exists data, c, m. split_and!; [done..|].
  apply for_each_run in Hpost as [_ Hpost].
  assert (Hat : files w2 !! resolve (cwd E) p = Some (File data c m)).
  { by rewrite Hfiles, lookup_insert_eq. }
  rewrite <- Hat. eapply run_fs_untouched; [exact Hpost| |by rewrite Hat].
  intros Hin. by apply Hlast, (written_destinations _ self date_format _ (files w2)).
Qed.

(** Two tuples for [a.txt], the second through another spelling of the
    path. *)
Lemma last_tuple_wins_witness :
  let z := Sample.archive [("old.txt", Stored []); ("new.txt", Stored Sample.hello)] in
  let t1 := ["old.txt"; "a.txt"; "2020-01-01T00:00:00"; "2020-01-01T00:00:00"] in
  let t2 := ["new.txt"; "./a.txt"; "2020-01-01T00:00:00"; "2020-06-01T00:00:00"] in
  let d := Sample.frame Sample.header [t1; t2] in
  let E := Sample.env z d in
  let w' := (extract E (Sample.session z d) Sample.iso Sample.bare).2 in
  resolve (cwd E) "./a.txt" = ["work"; "a.txt"] ∧
  ∃ data c m,
    ZipFile_read z (Str "new.txt") = inr data ∧
    epoch_of E (Str "2020-01-01T00:00:00") Sample.iso = inr c ∧
    epoch_of E (Str "2020-06-01T00:00:00") Sample.iso = inr m ∧
    files w' !! resolve (cwd E) "./a.txt" = Some (File data c m).
Proof.
  intros z t1 t2 d E w'. split; [vm_compute; reflexivity|].
  apply (last_tuple_wins E (Sample.session z d) z Sample.iso [map Str t1] []
           (Str "new.txt") (Str "2020-01-01T00:00:00")
           (Str "2020-06-01T00:00:00") "./a.txt" Sample.bare w').
  - vm_compute; reflexivity.
  - vm_compute; reflexivity.
  - vm_compute; reflexivity.
  - apply not_elem_of_nil.
  - vm_compute; reflexivity.
Defined.
